(** * RoadLink (dta/RoadLink.py): simulation series and geometry

    A shallow embedding of the [RoadLink] class of the DTA network library,
    with the properties its specification states about it.

    Conventions of the embedding:
    - Python integers (times in minutes, volumes, lane counts) are [Z];
    - Python floats (coordinates, lengths, angles) are idealised as the real
      numbers [R]: rounding, overflow and NaN are outside the model;
    - a method that mutates [self] is a function from the link to the changed
      link and a [result]; [raise] is the [Raise] constructor, so a mutation
      made before an exception is raised stays visible in the returned link;
    - objects compared with [==] in the source ([Node], [Link]) carry the
      identity they were allocated with, and [==] compares identities. *)

From Stdlib Require Import ZArith Reals Lra Lia.
From stdpp Require Import base option list strings gmap.

Local Open Scope Z_scope.

(** ** Exceptions *)

(** The messages of [DtaError], one constructor per [raise DtaError] site. *)
Inductive DtaReason : Type :=
| NumLanesNotPositive (numLanes : Z)
| InvalidTimeBin (startTimeInMin endTimeInMin : Z)
| OutOfSimulationTime (startTimeInMin endTimeInMin : Z)
| NotMultipleOfTimeStep (startTimeInMin endTimeInMin : Z)
| MovementWithVolume
| MoreThanOneMovement
| InvalidLaneId (laneId numLanes : Z)
| ZeroLengthLink (linkId : Z)
| CannotApplyAcuteAngle (fromId toId : Z).

Inductive PyError : Type :=
| DtaError (why : DtaReason)
| IndexError
| ValueError
| ZeroDivisionError
| NameError.

Definition isDtaError (e : PyError) : bool :=
  match e with DtaError _ => true | _ => false end.

Inductive result (A : Type) : Type :=
| Ok (a : A)
| Raise (e : PyError).
Arguments Ok {A} a.
Arguments Raise {A} e.

(** ** Python built-ins used by the class *)

(** [len(range(start, stop, step))] for a non-zero [step]. *)
Definition range_length (start stop step : Z) : Z :=
  if 0 <? step
  then (if start <? stop then (stop - start - 1) / step + 1 else 0)
  else (if stop <? start then (start - stop - 1) / (- step) + 1 else 0).

(** [range(start, stop, step)] of Python 2: the list of [start + i * step]. *)
Definition range (start stop step : Z) : result (list Z) :=
  if step =? 0 then Raise ValueError
  else Ok ((λ i : nat, start + Z.of_nat i * step)
             <$> seq 0 (Z.to_nat (range_length start stop step))).

(** The global name [pairwise], which [getSimVolume] calls on the [range]
    of its window.  RoadLink.py binds the names [pdb], [math],
    [defaultdict], [DtaError], [Link], [Movement], [VehicleClassGroup],
    [polylinesCross], [lineSegmentsCross] and [RoadLink]; [pairwise] is none
    of them and no built-in, so looking the name up raises [NameError].  The
    name of the callee is looked up before the arguments of the call are
    evaluated. *)
Definition pairwise : result (list Z → list (Z * Z)) := Raise NameError.

(** Python's [a % b] on integers: floored, [ZeroDivisionError] for [b = 0]. *)
Definition py_mod (a b : Z) : result Z :=
  if b =? 0 then Raise ZeroDivisionError else Ok (a mod b).

(** [collections.defaultdict]: reading a missing key stores the default
    under that key and returns it. *)
Definition defaultdict_getitem {V : Type} (dflt : V) (k : Z * Z)
    (d : gmap (Z * Z) V) : gmap (Z * Z) V * V :=
  match d !! k with
  | Some v => (d, v)
  | None => (<[k := dflt]> d, dflt)
  end.

(** [seq[-1]] and [seq[-2]] on a list. *)
Definition getitem_neg {A : Type} (l : list A) (k : nat) : result A :=
  match rev l !! (k - 1)%nat with
  | Some a => Ok a
  | None => Raise IndexError
  end.

(** Comparisons of Python numbers idealised as reals are decided. *)
#[global] Instance R_eq_dec : EqDecision R := Req_dec_T.
#[global] Instance Rle_decision (x y : R) : Decision (x <= y)%R := Rle_dec x y.
#[global] Instance Rlt_decision (x y : R) : Decision (x < y)%R := Rlt_dec x y.
#[global] Instance Rge_decision (x y : R) : Decision (x >= y)%R := Rge_dec x y.
#[global] Instance Rgt_decision (x y : R) : Decision (x > y)%R := Rgt_dec x y.

(** ** Collaborators *)

(** A [Node]: its identity and what [getX()], [getY()], [getId()] return. *)
Record Node : Type := mkNode {
  node_ident : positive;
  getX : R;
  getY : R;
  getId : Z
}.

(** [node1 == node2] on [Node] objects. *)
Definition Node_eq (a b : Node) : bool :=
  bool_decide (node_ident a = node_ident b).

(** Modelled from the spec: the [Movement] class is not part of the sources.
    The link uses two of its methods: [getSimVolume], a read accessor that
    returns a volume or raises, and [setSimVolume], which changes the
    movement. *)
Class Movement (Mv : Type) : Type := {
  mov_getSimVolume : Mv → Z → Z → result Z;
  mov_setSimVolume : Mv → Z → Z → Z → Mv * result unit
}.

(** The simulation clock shared by all links: [simStartTimeInMin],
    [simEndTimeInMin] and [simTimeStepInMin] are attributes of the [Link]
    base class. *)
Record SimClock : Type := mkSimClock {
  simStartTimeInMin : Z;
  simEndTimeInMin : Z;
  simTimeStepInMin : Z
}.

(** ** The class *)

Inductive Direction : Type := DIR_EB | DIR_WB | DIR_NB | DIR_SB.

Definition Point : Type := (R * R)%type.

Section RoadLink.

Context {Mv Vcg : Type} `{Movement Mv}.

(** The attributes of a [RoadLink] object.  [link_ident] is the identity of
    the object; [_length] is [None] when the constructor was passed Python's
    [None]. *)
Record RoadLink : Type := mkRoadLink {
  link_ident : positive;
  _id : Z;
  _startNode : Node;
  _endNode : Node;
  _label : option string;
  _reverseAttachedLinkId : option Z;
  _facilityType : Z;
  _length : option R;
  _freeflowSpeed : R;
  _effectiveLengthFactor : R;
  _responseTimeFactor : R;
  _numLanes : Z;
  _roundAbout : bool;
  _level : Z;
  _lanePermissions : gmap Z Vcg;
  _outgoingMovements : list Mv;
  _incomingMovements : list Mv;
  _startShift : option R;
  _endShift : option R;
  _shapePoints : list Point;
  _centerline : Point * Point;
  _simVolume : gmap (Z * Z) Z;
  _simMeanTT : gmap (Z * Z) R
}.

(** Attribute assignment [self._x = v], one function per assigned attribute. *)
Definition assign (l : RoadLink) (numLanes : Z) (perms : gmap Z Vcg)
    (out : list Mv) (shifts : option R * option R) (shape : list Point)
    (cl : Point * Point) (vol : gmap (Z * Z) Z) : RoadLink :=
  {| link_ident := link_ident l; _id := _id l;
     _startNode := _startNode l; _endNode := _endNode l; _label := _label l;
     _reverseAttachedLinkId := _reverseAttachedLinkId l;
     _facilityType := _facilityType l; _length := _length l;
     _freeflowSpeed := _freeflowSpeed l;
     _effectiveLengthFactor := _effectiveLengthFactor l;
     _responseTimeFactor := _responseTimeFactor l;
     _numLanes := numLanes; _roundAbout := _roundAbout l; _level := _level l;
     _lanePermissions := perms; _outgoingMovements := out;
     _incomingMovements := _incomingMovements l;
     _startShift := shifts.1; _endShift := shifts.2;
     _shapePoints := shape; _centerline := cl;
     _simVolume := vol; _simMeanTT := _simMeanTT l |}.

Definition shiftsOf (l : RoadLink) : option R * option R :=
  (_startShift l, _endShift l).

Definition set_numLanes (n : Z) (l : RoadLink) : RoadLink :=
  assign l n (_lanePermissions l) (_outgoingMovements l) (shiftsOf l)
    (_shapePoints l) (_centerline l) (_simVolume l).
Definition set_lanePermissions (p : gmap Z Vcg) (l : RoadLink) : RoadLink :=
  assign l (_numLanes l) p (_outgoingMovements l) (shiftsOf l)
    (_shapePoints l) (_centerline l) (_simVolume l).
Definition set_outgoingMovements (out : list Mv) (l : RoadLink) : RoadLink :=
  assign l (_numLanes l) (_lanePermissions l) out (shiftsOf l)
    (_shapePoints l) (_centerline l) (_simVolume l).
Definition set_shifts (s : option R * option R) (l : RoadLink) : RoadLink :=
  assign l (_numLanes l) (_lanePermissions l) (_outgoingMovements l) s
    (_shapePoints l) (_centerline l) (_simVolume l).
Definition set_shapePoints (sp : list Point) (l : RoadLink) : RoadLink :=
  assign l (_numLanes l) (_lanePermissions l) (_outgoingMovements l)
    (shiftsOf l) sp (_centerline l) (_simVolume l).
Definition set_centerline (cl : Point * Point) (l : RoadLink) : RoadLink :=
  assign l (_numLanes l) (_lanePermissions l) (_outgoingMovements l)
    (shiftsOf l) (_shapePoints l) cl (_simVolume l).
Definition set_simVolume (vol : gmap (Z * Z) Z) (l : RoadLink) : RoadLink :=
  assign l (_numLanes l) (_lanePermissions l) (_outgoingMovements l)
    (shiftsOf l) (_shapePoints l) (_centerline l) vol.

(** *** Methods as state transformers *)

Definition LinkM (A : Type) : Type := RoadLink → RoadLink * result A.

Definition ret {A : Type} (a : A) : LinkM A := λ l, (l, Ok a).
Definition raise {A : Type} (e : PyError) : LinkM A := λ l, (l, Raise e).
Definition bind {A B : Type} (m : LinkM A) (k : A → LinkM B) : LinkM B :=
  λ l, match m l with
       | (l', Ok a) => k a l'
       | (l', Raise e) => (l', Raise e)
       end.
Definition lift {A : Type} (r : result A) : LinkM A := λ l, (l, r).
Definition attr {A : Type} (f : RoadLink → A) : LinkM A := λ l, (l, Ok (f l)).
Definition store (f : RoadLink → RoadLink) : LinkM unit := λ l, (f l, Ok tt).

Notation "'let*' x ':=' m 'in' k" := (bind m (λ x, k))
  (at level 10, x name, m at level 100, k at level 200).
Notation "m ';;;' k" := (bind m (λ _, k))
  (at level 100, k at level 200, right associativity).

(** [for x in xs: body(x)], stopping at the first exception. *)
Fixpoint for_each {A : Type} (xs : list A) (body : A → LinkM unit)
    : LinkM unit :=
  match xs with
  | [] => ret tt
  | x :: xs' => body x ;;; for_each xs' body
  end.

(** [result = init; for x in xs: result += body(x)]. *)
Fixpoint accumulate {A : Type} (xs : list A) (body : A → LinkM Z) (acc : Z)
    : LinkM Z :=
  match xs with
  | [] => ret acc
  | x :: xs' => let* v := body x in accumulate xs' body (acc + v)
  end.

(** *** Simulation series *)

Variable clock : SimClock.

Definition _validateInputTimes (startTimeInMin endTimeInMin : Z) : LinkM unit :=
  if startTimeInMin >=? endTimeInMin
  then raise (DtaError (InvalidTimeBin startTimeInMin endTimeInMin))
  else if (startTimeInMin <? simStartTimeInMin clock)
          || (endTimeInMin >? simEndTimeInMin clock)
  then raise (DtaError (OutOfSimulationTime startTimeInMin endTimeInMin))
  else ret tt.

Definition _checkInputTimeStep (startTimeInMin endTimeInMin : Z) : LinkM unit :=
  if negb (endTimeInMin - startTimeInMin =? simTimeStepInMin clock)
  then raise (DtaError (NotMultipleOfTimeStep startTimeInMin endTimeInMin))
  else ret tt.

Definition _checkOutputTimeStep (startTimeInMin endTimeInMin : Z) : LinkM unit :=
  let* r := lift (py_mod (endTimeInMin - startTimeInMin)
                         (simTimeStepInMin clock)) in
  if negb (r =? 0)
  then raise (DtaError (NotMultipleOfTimeStep startTimeInMin endTimeInMin))
  else ret tt.

Definition getNumOutgoingMovements : LinkM Z :=
  attr (λ l, Z.of_nat (length (_outgoingMovements l))).

(** The loop of [_hasMovementVolumes] over the outgoing movements. *)
Fixpoint hasVolumes (movs : list Mv) (startTimeInMin endTimeInMin : Z)
    : result bool :=
  match movs with
  | [] => Ok false
  | mov :: movs' =>
      match mov_getSimVolume mov startTimeInMin endTimeInMin with
      | Ok v => if v >? 0 then Ok true
                else hasVolumes movs' startTimeInMin endTimeInMin
      | Raise e => Raise e
      end
  end.

Definition _hasMovementVolumes (startTimeInMin endTimeInMin : Z) : LinkM bool :=
  let* movs := attr _outgoingMovements in
  lift (hasVolumes movs startTimeInMin endTimeInMin).

(** [sum([mov.getSimVolume(s, e) for mov in movs])]: the list is built
    first, so the first exception wins. *)
Fixpoint sumMovementVolumes (movs : list Mv) (startTimeInMin endTimeInMin : Z)
    : result Z :=
  match movs with
  | [] => Ok 0
  | mov :: movs' =>
      match mov_getSimVolume mov startTimeInMin endTimeInMin with
      | Ok v =>
          match sumMovementVolumes movs' startTimeInMin endTimeInMin with
          | Ok rest => Ok (v + rest)
          | Raise e => Raise e
          end
      | Raise e => Raise e
      end
  end.

(** [self._simVolume[stTime, enTime]] on the defaultdict: the body of the
    loop of [getSimVolume]. *)
Definition readSimVolume (k : Z * Z) : LinkM Z :=
  λ l, let '(d, v) := defaultdict_getitem 0 k (_simVolume l) in
       (set_simVolume d l, Ok v).

Definition getSimVolume (startTimeInMin endTimeInMin : Z) : LinkM Z :=
  _validateInputTimes startTimeInMin endTimeInMin ;;;
  _checkOutputTimeStep startTimeInMin endTimeInMin ;;;
  let* n := getNumOutgoingMovements in
  if n >? 0
  then let* movs := attr _outgoingMovements in
       lift (sumMovementVolumes movs startTimeInMin endTimeInMin)
  else let* pairs := lift pairwise in
       let* times := lift (range startTimeInMin (endTimeInMin + 1)
                                 (simTimeStepInMin clock)) in
       accumulate (pairs times) readSimVolume 0.

(** The [for] loop of [setSimVolume] over the outgoing movements: each one
    is written in turn and replaced in the list by its new state. *)
Fixpoint writeMovements (movs : list Mv) (s e volume : Z)
    : list Mv * result unit :=
  match movs with
  | [] => ([], Ok tt)
  | mov :: movs' =>
      match mov_setSimVolume mov s e volume with
      | (mov', Ok _) =>
          let '(rest, r) := writeMovements movs' s e volume in
          (mov' :: rest, r)
      | (mov', Raise err) => (mov' :: movs', Raise err)
      end
  end.

Definition setSimVolume (startTimeInMin endTimeInMin volume : Z) : LinkM unit :=
  _validateInputTimes startTimeInMin endTimeInMin ;;;
  _checkInputTimeStep startTimeInMin endTimeInMin ;;;
  let* has := _hasMovementVolumes startTimeInMin endTimeInMin in
  if has : bool then raise (DtaError MovementWithVolume)
  else
    let* n := getNumOutgoingMovements in
    if n >? 1 then raise (DtaError MoreThanOneMovement)
    else if n =? 1 then
      λ l, let '(movs, r) := writeMovements (_outgoingMovements l)
                               startTimeInMin endTimeInMin volume in
           (set_outgoingMovements movs l, r)
    else
      store (λ l, set_simVolume
                    (<[(startTimeInMin, endTimeInMin) := volume]> (_simVolume l)) l).


(** *** Plain accessors and mutators *)

Definition DEFAULT_LEVEL : Z := 0.
Definition DEFAULT_LANE_WIDTH_FEET : Z := 12.

Definition getNumLanes (l : RoadLink) : Z := _numLanes l.

Definition setNumLanes (numLanes : Z) : LinkM unit :=
  store (set_numLanes numLanes).

Definition addLanePermission (laneId : Z) (vehicleClassGroup : Vcg)
    : LinkM unit :=
  let* n := attr _numLanes in
  if (laneId <? 0) || (laneId >=? n)
  then raise (DtaError (InvalidLaneId laneId n))
  else store (λ l, set_lanePermissions
                     (<[laneId := vehicleClassGroup]> (_lanePermissions l)) l).

Definition addShifts (startShift endShift : R) : LinkM unit :=
  store (set_shifts (Some startShift, Some endShift)).

Definition getShifts (l : RoadLink) : option R * option R := shiftsOf l.

Definition addShapePoint (x y : R) : LinkM unit :=
  store (λ l, set_shapePoints (_shapePoints l ++ [(x, y)]) l).

Definition getNumShapePoints (l : RoadLink) : Z :=
  Z.of_nat (length (_shapePoints l)).

Definition getStartNode (l : RoadLink) : Node := _startNode l.
Definition getEndNode (l : RoadLink) : Node := _endNode l.

(** *** Geometry *)

Local Open Scope R_scope.

(** Modelled from the spec: [euclideanLength] belongs to the [Link] base
    class, which is not part of the sources; it is the Euclidean distance
    between the start and end node coordinates. *)
Definition euclideanLength (l : RoadLink) : R :=
  sqrt ((getX (_endNode l) - getX (_startNode l)) ^ 2
        + (getY (_endNode l) - getY (_startNode l)) ^ 2).

(** The value returned is a Python value: [None] stands for Python's [None]. *)
Definition getLength (l : RoadLink) : option R :=
  match _length l with
  | None => None
  | Some len => if bool_decide (len = -1) then Some (euclideanLength l) else Some len
  end.

(** The pair of points [getCenterLine] computes. *)
Definition centerLineOf (l : RoadLink) : Point * Point :=
  let dx := getX (_endNode l) - getX (_startNode l) in
  let dy := getY (_endNode l) - getY (_startNode l) in
  let length := euclideanLength l in
  let length := if bool_decide (length = 0) then 1 else length in
  let scale := IZR (getNumLanes l) * IZR DEFAULT_LANE_WIDTH_FEET / 2 / length in
  let xOffset := dy * scale in
  let yOffset := - dx * scale in
  ((getX (_startNode l) + xOffset, getY (_startNode l) + yOffset),
   (getX (_endNode l) + xOffset, getY (_endNode l) + yOffset)).

Definition getCenterLine : LinkM (Point * Point) :=
  let* c := attr centerLineOf in
  store (set_centerline c) ;;;
  attr _centerline.

Definition getOutline (scale : R) (l : RoadLink) : Point * Point * Point * Point :=
  let dx := getX (_endNode l) - getX (_startNode l) in
  let dy := getY (_endNode l) - getY (_startNode l) in
  let length := euclideanLength l in
  let length := if bool_decide (length = 0) then 1 else length in
  let scale := IZR (getNumLanes l) * IZR DEFAULT_LANE_WIDTH_FEET / length * scale in
  let xOffset := dy * scale in
  let yOffset := - dx * scale in
  ((getX (_startNode l), getY (_startNode l)),
   (getX (_endNode l), getY (_endNode l)),
   (getX (_endNode l) + xOffset, getY (_endNode l) + yOffset),
   (getX (_startNode l) + xOffset, getY (_startNode l) + yOffset)).

Definition getMidPoint (l : RoadLink) : Point :=
  (((_centerline l).1.1 + (_centerline l).2.1) / 2,
   ((_centerline l).1.2 + (_centerline l).2.2) / 2).

(** [self == other] on links. *)
Definition Link_eq (a b : RoadLink) : bool :=
  bool_decide (link_ident a = link_ident b).

(** Over the reals the ratio of [getAcuteAngle] is a cosine, so the branch
    for a ratio above 1 in absolute value is not taken.  On floats rounding
    takes it for some parallel and anti-parallel links, and there the code
    answers 0 whatever the sign of the ratio: the angle of anti-parallel
    links that are not caught by the reversed-links test is not settled by
    this model. *)
Definition getAcuteAngle (self other : RoadLink) : result R :=
  if Link_eq self other then Ok 0
  else if bool_decide (getX (getStartNode self) = getX (getStartNode other))
          && bool_decide (getY (getStartNode self) = getY (getEndNode other))
          && bool_decide (getX (getEndNode self) = getX (getEndNode other))
          && bool_decide (getY (getEndNode self) = getY (getEndNode other))
  then Ok 0
  else if Node_eq (getStartNode self) (getEndNode other)
          && Node_eq (getEndNode self) (getStartNode other)
  then Ok 180
  else
    let dx1 := getX (getEndNode self) - getX (getStartNode self) in
    let dy1 := getY (getEndNode self) - getY (getStartNode self) in
    let dx2 := getX (getEndNode other) - getX (getStartNode other) in
    let dy2 := getY (getEndNode other) - getY (getStartNode other) in
    let length1 := sqrt (dx1 ^ 2 + dy1 ^ 2) in
    let length2 := sqrt (dx2 ^ 2 + dy2 ^ 2) in
    if bool_decide (length1 = 0) then Raise (DtaError (ZeroLengthLink (_id self)))
    else if bool_decide (length2 = 0)
    then Raise (DtaError (ZeroLengthLink (_id other)))
    else if bool_decide (Rabs ((dx1 * dx2 + dy1 * dy2) / (length1 * length2)) > 1)
    then
      if bool_decide (Rabs ((dx1 * dx2 + dy1 * dy2) / (length1 * length2)) - 1
                      < 0.00001)
      then Ok 0
      else Raise (DtaError (CannotApplyAcuteAngle (_id self) (_id other)))
    else Ok (Rabs (acos ((dx1 * dx2 + dy1 * dy2) / (length1 * length2)))
             / PI * 180).

Definition isOverlapping (self other : RoadLink) : result bool :=
  match getAcuteAngle self other with
  | Ok a => Ok (bool_decide (a <= 1))
  | Raise e => Raise e
  end.

(** The two points [getOrientation] measures between. *)
Definition orientationPoints (l : RoadLink) : result (Point * Point) :=
  match _shapePoints l with
  | _ :: _ =>
      match getitem_neg (_shapePoints l) 2 with
      | Ok p1 =>
          match getitem_neg (_shapePoints l) 1 with
          | Ok p2 => Ok (p1, p2)
          | Raise e => Raise e
          end
      | Raise e => Raise e
      end
  | [] => Ok ((getX (getStartNode l), getY (getStartNode l)),
              (getX (getEndNode l), getY (getEndNode l)))
  end.

(** The bearing, in degrees, of the segment from (x1,y1) to (x2,y2). *)
Definition bearing (p1 p2 : Point) : R :=
  let '(x1, y1) := p1 in
  let '(x2, y2) := p2 in
  let orientation :=
    if bool_decide (x2 > x1) && bool_decide (y2 <= y1)
    then atan (Rabs (y2 - y1) / Rabs (x2 - x1)) + PI / 2
    else if bool_decide (x2 <= x1) && bool_decide (y2 < y1)
    then atan (Rabs (x2 - x1) / Rabs (y2 - y1)) + PI
    else if bool_decide (x2 < x1) && bool_decide (y2 >= y1)
    then atan (Rabs (y2 - y1) / Rabs (x2 - x1)) + 3 * PI / 2
    else if bool_decide (x2 >= x1) && bool_decide (y2 > y1)
    then atan (Rabs (x2 - x1) / Rabs (y2 - y1))
    else 0 in
  orientation * 180 / PI.

Definition getOrientation (l : RoadLink) : result R :=
  match orientationPoints l with
  | Ok (p1, p2) => Ok (bearing p1 p2)
  | Raise e => Raise e
  end.

(** The buckets of [getDirection]. *)
Definition directionOf (orientation : R) : Direction :=
  if bool_decide (315 <= orientation) || bool_decide (orientation < 45)
  then DIR_NB
  else if bool_decide (45 <= orientation) && bool_decide (orientation < 135)
  then DIR_EB
  else if bool_decide (135 <= orientation) && bool_decide (orientation < 225)
  then DIR_SB
  else DIR_WB.

Definition getDirection (l : RoadLink) : result Direction :=
  match getOrientation l with
  | Ok orientation => Ok (directionOf orientation)
  | Raise e => Raise e
  end.

Local Close Scope R_scope.

(** *** Constructor *)

(** [RoadLink(id, startNode, ..., label)]; [ident] is the identity of the new
    object.  [Link.__init__] stores the id, the two nodes and the label. *)
Definition __init__ (ident : positive) (id : Z) (startNode endNode : Node)
    (reverseAttachedLinkId : option Z) (facilityType : Z) (length : option R)
    (freeflowSpeed effectiveLengthFactor responseTimeFactor : R)
    (numLanes : Z) (roundAbout : bool) (level : option Z)
    (label : option string) : result RoadLink :=
  if numLanes <=? 0 then Raise (DtaError (NumLanesNotPositive numLanes))
  else
    let self :=
      {| link_ident := ident; _id := id;
         _startNode := startNode; _endNode := endNode; _label := label;
         _reverseAttachedLinkId := reverseAttachedLinkId;
         _facilityType := facilityType; _length := length;
         _freeflowSpeed := freeflowSpeed;
         _effectiveLengthFactor := effectiveLengthFactor;
         _responseTimeFactor := responseTimeFactor;
         _numLanes := numLanes; _roundAbout := roundAbout;
         _level := match level with
                   | Some v => if v =? 0 then DEFAULT_LEVEL else v
                   | None => DEFAULT_LEVEL
                   end;
         _lanePermissions := ∅; _outgoingMovements := [];
         _incomingMovements := [];
         _startShift := None; _endShift := None;
         _shapePoints := []; _centerline := ((0, 0), (0, 0))%R;
         _simVolume := ∅; _simMeanTT := ∅ |} in
    Ok (set_centerline (centerLineOf self) self).

End RoadLink.

Arguments RoadLink : clear implicits.

(** ** The class, continued: travel times and topology

    The methods below raise [DtaError] with messages of their own, and one
    of them fails while it formats its message. *)

Inductive DtaMessage : Type :=
| TimeStepNotImplemented
| TravelTimeWithSeveralMovements
| TravelTimeWithZeroFlow
| InconsistentMovement
| ExistingMovement
| InexistingMovement
| NoMovementToNode (startNodeId endNodeId nodeId : Z).

Inductive Failure : Type :=
| Raised (e : PyError)
| DtaErrorSaying (msg : DtaMessage)
| TypeError.

Definition isDomainFailure (f : Failure) : bool :=
  match f with
  | Raised e => isDtaError e
  | DtaErrorSaying _ => true
  | TypeError => false
  end.

Inductive outcome (A : Type) : Type :=
| Done (a : A)
| Failed (f : Failure).
Arguments Done {A} a.
Arguments Failed {A} f.

(** Modelled from the spec: the [setSimTTInMin] method of the [Movement]
    class, which is not part of the sources; it changes the movement or
    raises. *)
Class MovementTT (Mv : Type) : Type := {
  mov_setSimTTInMin : Mv → Z → Z → R → Mv * result unit
}.

Section TravelTime.

Context {Mv Vcg : Type} `{Movement Mv} `{MovementTT Mv}.
Variable clock : SimClock.

(** [self._simMeanTT = tt]. *)
Definition set_simMeanTT (times : gmap (Z * Z) R) (l : RoadLink Mv Vcg)
    : RoadLink Mv Vcg :=
  {| link_ident := link_ident l; _id := _id l;
     _startNode := _startNode l; _endNode := _endNode l; _label := _label l;
     _reverseAttachedLinkId := _reverseAttachedLinkId l;
     _facilityType := _facilityType l; _length := _length l;
     _freeflowSpeed := _freeflowSpeed l;
     _effectiveLengthFactor := _effectiveLengthFactor l;
     _responseTimeFactor := _responseTimeFactor l;
     _numLanes := _numLanes l; _roundAbout := _roundAbout l;
     _level := _level l; _lanePermissions := _lanePermissions l;
     _outgoingMovements := _outgoingMovements l;
     _incomingMovements := _incomingMovements l;
     _startShift := _startShift l; _endShift := _endShift l;
     _shapePoints := _shapePoints l; _centerline := _centerline l;
     _simVolume := _simVolume l; _simMeanTT := times |}.

Definition LinkT (A : Type) : Type :=
  RoadLink Mv Vcg → RoadLink Mv Vcg * outcome A.

Definition finish {A : Type} (a : A) : LinkT A := λ l, (l, Done a).
Definition fail {A : Type} (f : Failure) : LinkT A := λ l, (l, Failed f).
Definition andThen {A B : Type} (m : LinkT A) (k : A → LinkT B) : LinkT B :=
  λ l, match m l with
       | (l', Done a) => k a l'
       | (l', Failed f) => (l', Failed f)
       end.
(** A call of one of the methods above. *)
Definition call {A : Type} (m : LinkM A) : LinkT A :=
  λ l, match m l with
       | (l', Ok a) => (l', Done a)
       | (l', Raise e) => (l', Failed (Raised e))
       end.

Notation "'let*' x ':=' m 'in' k" := (andThen m (λ x, k))
  (at level 10, x name, m at level 100, k at level 200).
Notation "m ';;;' k" := (andThen m (λ _, k))
  (at level 100, k at level 200, right associativity).

(** The [for] loop of [setSimTTInMin] over the outgoing movements. *)
Fixpoint writeMovementTimes (movs : list Mv) (s e : Z) (averageTT : R)
    : list Mv * result unit :=
  match movs with
  | [] => ([], Ok tt)
  | mov :: movs' =>
      match mov_setSimTTInMin mov s e averageTT with
      | (mov', Ok _) =>
          let '(rest, r) := writeMovementTimes movs' s e averageTT in
          (mov' :: rest, r)
      | (mov', Raise err) => (mov' :: movs', Raise err)
      end
  end.

(** The two [DtaError]s raised after the checks format the attributes [iid]
    and [iid_] of the [Link] base class into their messages. *)
Definition setSimTTInMin (startTimeInMin endTimeInMin : Z) (averageTTInMin : R)
    : LinkT unit :=
  call (_validateInputTimes clock startTimeInMin endTimeInMin) ;;;
  call (_checkInputTimeStep clock startTimeInMin endTimeInMin) ;;;
  (if (startTimeInMin <? simStartTimeInMin clock)
      || (endTimeInMin >? simEndTimeInMin clock)
   then fail (Raised (DtaError (OutOfSimulationTime startTimeInMin endTimeInMin)))
   else finish tt) ;;;
  (if negb (endTimeInMin - startTimeInMin =? simTimeStepInMin clock)
   then fail (DtaErrorSaying TimeStepNotImplemented)
   else finish tt) ;;;
  let* n := call getNumOutgoingMovements in
  if n >? 1 then fail (DtaErrorSaying TravelTimeWithSeveralMovements)
  else if n =? 1 then
    if bool_decide (averageTTInMin = 0%R) then finish tt
    else
      call (λ l, let '(movs, r) := writeMovementTimes (_outgoingMovements l)
                                     startTimeInMin endTimeInMin averageTTInMin in
                 (set_outgoingMovements movs l, r))
  else
    if bool_decide (averageTTInMin = 0%R) then finish tt
    else
      let* volume := call (getSimVolume clock startTimeInMin endTimeInMin) in
      if volume =? 0 then fail (DtaErrorSaying TravelTimeWithZeroFlow)
      else
        λ l, (set_simMeanTT (<[(startTimeInMin, endTimeInMin) := averageTTInMin]>
                               (_simMeanTT l)) l, Done tt).

End TravelTime.

(** *** Topology

    Movements and links refer to each other: a link is named by its
    identity and the network maps the identities to the links.  A method
    returns [None] only when an identity it follows names no link of the
    network, which a Python reference cannot do. *)

(** Modelled from the spec: a [Movement] object, as far as the topology
    methods read it: its identity and what [getIncomingLink()],
    [getOutgoingLink()] and [getDestinationNode()] return. *)
Record MovementObj : Type := mkMovementObj {
  mov_ident : positive;
  getIncomingLink : positive;
  getOutgoingLink : positive;
  getDestinationNode : Node
}.

(** [mov1 == mov2] on [Movement] objects. *)
Definition Movement_eq (a b : MovementObj) : bool :=
  bool_decide (mov_ident a = mov_ident b).

(** [x in seq] and [seq.remove(x)] on a list of movements; [remove] takes
    out the first equal element and raises [ValueError] when there is none. *)
Fixpoint py_in (x : MovementObj) (l : list MovementObj) : bool :=
  match l with
  | [] => false
  | y :: l' => if Movement_eq y x then true else py_in x l'
  end.

Fixpoint py_remove (x : MovementObj) (l : list MovementObj)
    : option (list MovementObj) :=
  match l with
  | [] => None
  | y :: l' =>
      if Movement_eq y x then Some l'
      else match py_remove x l' with
           | Some r => Some (y :: r)
           | None => None
           end
  end.

Section Topology.

Context {Vcg : Type}.

Definition Network : Type := gmap positive (RoadLink MovementObj Vcg).

(** [self._incomingMovements = inc]. *)
Definition set_incomingMovements (inc : list MovementObj)
    (l : RoadLink MovementObj Vcg) : RoadLink MovementObj Vcg :=
  {| link_ident := link_ident l; _id := _id l;
     _startNode := _startNode l; _endNode := _endNode l; _label := _label l;
     _reverseAttachedLinkId := _reverseAttachedLinkId l;
     _facilityType := _facilityType l; _length := _length l;
     _freeflowSpeed := _freeflowSpeed l;
     _effectiveLengthFactor := _effectiveLengthFactor l;
     _responseTimeFactor := _responseTimeFactor l;
     _numLanes := _numLanes l; _roundAbout := _roundAbout l;
     _level := _level l; _lanePermissions := _lanePermissions l;
     _outgoingMovements := _outgoingMovements l;
     _incomingMovements := inc;
     _startShift := _startShift l; _endShift := _endShift l;
     _shapePoints := _shapePoints l; _centerline := _centerline l;
     _simVolume := _simVolume l; _simMeanTT := _simMeanTT l |}.

(** The loop of [hasOutgoingMovement] and of [getOutgoingMovement]: the
    first outgoing movement towards [nodeId]. *)
Fixpoint firstMovementTo (movs : list MovementObj) (nodeId : Z)
    : option MovementObj :=
  match movs with
  | [] => None
  | mov :: movs' =>
      if getId (getDestinationNode mov) =? nodeId then Some mov
      else firstMovementTo movs' nodeId
  end.

Definition hasOutgoingMovement (l : RoadLink MovementObj Vcg) (nodeId : Z)
    : bool :=
  match firstMovementTo (_outgoingMovements l) nodeId with
  | Some _ => true
  | None => false
  end.

Definition getOutgoingMovement (l : RoadLink MovementObj Vcg) (nodeId : Z)
    : outcome MovementObj :=
  match firstMovementTo (_outgoingMovements l) nodeId with
  | Some mov => Done mov
  | None => Failed (DtaErrorSaying
                      (NoMovementToNode (getId (_startNode l))
                         (getId (_endNode l)) nodeId))
  end.

Definition getNumIncomingMovements (l : RoadLink MovementObj Vcg) : Z :=
  Z.of_nat (length (_incomingMovements l)).

(** The message of the second [raise] has no conversion specifier for the
    argument it is formatted with: the [%] operator raises [TypeError]
    before the [DtaError] is built. *)
Definition addOutgoingMovement (self : positive) (movement : MovementObj)
    (net : Network) : option (Network * outcome unit) :=
  match net !! self with
  | None => None
  | Some l =>
      if negb (bool_decide (getIncomingLink movement = self))
      then Some (net, Failed TypeError)
      else if hasOutgoingMovement l (getId (getDestinationNode movement))
      then Some (net, Failed (DtaErrorSaying ExistingMovement))
      else
        let net1 :=
          <[self := set_outgoingMovements
                      (_outgoingMovements l ++ [movement]) l]> net in
        match net1 !! getOutgoingLink movement with
        | None => None
        | Some target =>
            Some (<[getOutgoingLink movement :=
                      set_incomingMovements
                        (_incomingMovements target ++ [movement]) target]> net1,
                  Done tt)
        end
  end.

Definition removeOutgoingMovement (self : positive)
    (movementToRemove : MovementObj) (net : Network)
    : option (Network * outcome unit) :=
  match net !! self with
  | None => None
  | Some l =>
      if negb (bool_decide (getIncomingLink movementToRemove = self))
      then Some (net, Failed (DtaErrorSaying InconsistentMovement))
      else if negb (py_in movementToRemove (_outgoingMovements l))
      then Some (net, Failed (DtaErrorSaying InexistingMovement))
      else
        match py_remove movementToRemove (_outgoingMovements l) with
        | None => Some (net, Failed (Raised ValueError))
        | Some out =>
            let net1 := <[self := set_outgoingMovements out l]> net in
            match net1 !! getOutgoingLink movementToRemove with
            | None => None
            | Some target =>
                match py_remove movementToRemove (_incomingMovements target) with
                | None => Some (net1, Failed (Raised ValueError))
                | Some inc =>
                    Some (<[getOutgoingLink movementToRemove :=
                              set_incomingMovements inc target]> net1,
                          Done tt)
                end
            end
        end
  end.

End Topology.

(** ** Vocabulary of the properties *)

Definition Zsum (l : list Z) : Z := foldr Z.add 0 l.

(** The native bins covering the window [s, e): consecutive windows of
    width [simTimeStepInMin], the first starting at [s]. *)
Definition subBins (clock : SimClock) (s e : Z) : list (Z * Z) :=
  (λ i : nat, (s + Z.of_nat i * simTimeStepInMin clock,
               s + (Z.of_nat i + 1) * simTimeStepInMin clock))
    <$> seq 0 (Z.to_nat ((e - s) / simTimeStepInMin clock)).

(** [sum(link.getSimVolume(a, b) for (a, b) in bins)], the calls made one
    after the other on the same link. *)
Definition sumSimVolumeOverBins {Mv Vcg : Type} `{Movement Mv}
    (clock : SimClock) (bins : list (Z * Z)) : LinkM (Mv := Mv) (Vcg := Vcg) Z :=
  accumulate bins (λ b, getSimVolume clock b.1 b.2) 0.

(** [sum(mov.getSimVolume(a, b) for (a, b) in bins)] for one movement. *)
Fixpoint sumMovementOverBins {Mv : Type} `{Movement Mv} (mov : Mv)
    (bins : list (Z * Z)) : result Z :=
  match bins with
  | [] => Ok 0
  | b :: bins' =>
      match mov_getSimVolume mov b.1 b.2 with
      | Ok v =>
          match sumMovementOverBins mov bins' with
          | Ok rest => Ok (v + rest)
          | Raise e => Raise e
          end
      | Raise e => Raise e
      end
  end.

(** What a movement answers for a bin, 0 standing in when it raises. *)
Definition movementVolume {Mv : Type} `{Movement Mv} (mov : Mv) (b : Z * Z) : Z :=
  match mov_getSimVolume mov b.1 b.2 with Ok v => v | Raise _ => 0 end.

(** A movement whose volume over the window is the sum of its volumes over
    the native bins of the window. *)
Definition movementAdditive {Mv : Type} `{Movement Mv} (clock : SimClock)
    (s e : Z) (mov : Mv) : Prop :=
  ∃ V, mov_getSimVolume mov s e = Ok V
       ∧ sumMovementOverBins mov (subBins clock s e) = Ok V.

(** A movement whose volume accessor raises nothing but [DtaError]. *)
Definition movementRaisesDtaOnly {Mv : Type} `{Movement Mv} (s e : Z)
    (mov : Mv) : Prop :=
  ∀ err, mov_getSimVolume mov s e = Raise err → isDtaError err = true.

(** The window [s, e) lies in the simulation horizon. *)
Definition inHorizon (clock : SimClock) (s e : Z) : Prop :=
  simStartTimeInMin clock ≤ s ∧ s < e ∧ e ≤ simEndTimeInMin clock.

(** *** Plane geometry *)

Definition vadd (p v : Point) : Point := (p.1 + v.1, p.2 + v.2)%R.
Definition vsub (p q : Point) : Point := (p.1 - q.1, p.2 - q.2)%R.
Definition dot (u v : Point) : R := (u.1 * v.1 + u.2 * v.2)%R.
Definition cross (u v : Point) : R := (u.1 * v.2 - u.2 * v.1)%R.
Definition norm (v : Point) : R := sqrt (v.1 ^ 2 + v.2 ^ 2).

(** Twice the signed area of a four-point ring (shoelace formula): it is
    negative when the ring runs clockwise, the y axis pointing north. *)
Definition signedArea2 (ring : Point * Point * Point * Point) : R :=
  let '(p0, p1, p2, p3) := ring in
  (cross p0 p1 + cross p1 p2 + cross p2 p3 + cross p3 p0)%R.

Definition clockwise (ring : Point * Point * Point * Point) : Prop :=
  (signedArea2 ring < 0)%R.

Definition startPoint {Mv Vcg : Type} (l : RoadLink Mv Vcg) : Point :=
  (getX (getStartNode l), getY (getStartNode l)).
Definition endPoint {Mv Vcg : Type} (l : RoadLink Mv Vcg) : Point :=
  (getX (getEndNode l), getY (getEndNode l)).

(** The footprint of a link: [getCenterLine] returns the node-to-node
    segment moved by [halfWidth], at a right angle and to the right of the
    direction of travel; [getOutline(1)] returns the ring (start node, end
    node, end node offset, start node offset), clockwise, the offset being
    [width] long and at a right angle to the segment. *)
Definition footprint {Mv Vcg : Type} (l : RoadLink Mv Vcg)
    (halfWidth width : R) : Prop :=
  let a := startPoint l in
  let b := endPoint l in
  (∃ off, (getCenterLine l).2 = Ok (vadd a off, vadd b off)
          ∧ dot off (vsub b a) = 0%R
          ∧ (cross (vsub b a) off < 0)%R
          ∧ norm off = halfWidth)
  ∧ (∃ off, getOutline 1 l = (a, b, vadd b off, vadd a off)
            ∧ dot off (vsub b a) = 0%R
            ∧ norm off = width
            ∧ clockwise (getOutline 1 l)).

(** Two links that are each other's reverse: the start node of one is the
    end node of the other. *)
Definition reversed {Mv Vcg : Type} (self other : RoadLink Mv Vcg) : Prop :=
  getStartNode self = getEndNode other ∧ getEndNode self = getStartNode other.

(** The two shortcuts [getAcuteAngle] takes before it measures, as its
    conditions are written. *)
Definition coordinateShortcut {Mv Vcg : Type} (self other : RoadLink Mv Vcg)
    : Prop :=
  getX (getStartNode self) = getX (getStartNode other)
  ∧ getY (getStartNode self) = getY (getEndNode other)
  ∧ getX (getEndNode self) = getX (getEndNode other)
  ∧ getY (getEndNode self) = getY (getEndNode other).

Definition reverseShortcut {Mv Vcg : Type} (self other : RoadLink Mv Vcg)
    : Prop :=
  node_ident (getStartNode self) = node_ident (getEndNode other)
  ∧ node_ident (getEndNode self) = node_ident (getStartNode other).

(** Every lane that holds a permission is a lane of the link. *)
Definition lanesWithinBounds {Mv Vcg : Type} (l : RoadLink Mv Vcg) : Prop :=
  ∀ laneId, is_Some (_lanePermissions l !! laneId) →
            0 ≤ laneId < getNumLanes l.

(** The node ids the outgoing movements of a link lead to, and the
    networks in which no link has two outgoing movements towards the same
    node id. *)
Definition destinationIds {Vcg : Type} (l : RoadLink MovementObj Vcg)
    : list Z :=
  (λ mov, getId (getDestinationNode mov)) <$> _outgoingMovements l.

Definition distinctDestinations {Vcg : Type} (net : Network (Vcg := Vcg))
    : Prop :=
  ∀ k l, net !! k = Some l → NoDup (destinationIds l).

(** The movement is none of the objects of the list. *)
Definition freshIn (mov : MovementObj) (movs : list MovementObj) : Prop :=
  Forall (λ m, mov_ident m ≠ mov_ident mov) movs.

(** ** A table-backed movement

    A stand-in for the [Movement] collaborator, used to exercise the
    theorems on concrete networks: it keeps one volume per native bin and
    answers a window with the sum over the bins of the window, the bins
    being the [consecutive] pairs (t0,t1), (t1,t2), ... of the times of the
    window. *)
Fixpoint consecutive {A : Type} (l : list A) : list (A * A) :=
  match l with
  | a :: (b :: _) as t => (a, b) :: consecutive t
  | _ => []
  end.

Record TableMovement : Type := mkTableMovement {
  tm_step : Z;
  tm_volumes : gmap (Z * Z) Z
}.

Definition tm_getSimVolume (m : TableMovement) (s e : Z) : result Z :=
  match range s (e + 1) (tm_step m) with
  | Ok times => Ok (Zsum ((λ k, default 0 (tm_volumes m !! k)) <$> consecutive times))
  | Raise err => Raise err
  end.

Definition tm_setSimVolume (m : TableMovement) (s e v : Z)
    : TableMovement * result unit :=
  (mkTableMovement (tm_step m) (<[(s, e) := v]> (tm_volumes m)), Ok tt).

#[global] Instance TableMovement_ops : Movement TableMovement :=
  {| mov_getSimVolume := tm_getSimVolume; mov_setSimVolume := tm_setSimVolume |}.

(** ** A small network

    Concrete nodes, movements and links on which the theorems are
    exercised.  The links are what the constructor builds, with movements
    and shape points attached. *)

Definition clock15 : SimClock := mkSimClock 0 60 15.

Definition nodeO : Node := mkNode 1 0 0 1.
Definition nodeE : Node := mkNode 2 10 0 2.
Definition nodeN : Node := mkNode 3 0 10 3.
Definition nodeU : Node := mkNode 4 1 0 4.
Definition nodeF : Node := mkNode 5 0 5 5.
Definition nodeO' : Node := mkNode 6 0 0 6.

Definition movA : TableMovement :=
  mkTableMovement 15 (<[(0, 15) := 3]> (<[(15, 30) := 4]> ∅)).
Definition movB : TableMovement :=
  mkTableMovement 15 (<[(15, 30) := 7]> ∅).

(** The link [RoadLink(id, startNode, endNode, None, 1, length, 30, 1, 1,
    numLanes, False, None, None)] after [movs] and [shape] were attached. *)
Definition sampleLink (id : positive) (startNode endNode : Node)
    (length : option R) (numLanes : Z) (movs : list TableMovement)
    (shape : list Point) : RoadLink TableMovement unit :=
  let self :=
    {| link_ident := id; _id := Z.pos id;
       _startNode := startNode; _endNode := endNode; _label := None;
       _reverseAttachedLinkId := None; _facilityType := 1; _length := length;
       _freeflowSpeed := 30; _effectiveLengthFactor := 1;
       _responseTimeFactor := 1; _numLanes := numLanes; _roundAbout := false;
       _level := 0; _lanePermissions := ∅; _outgoingMovements := movs;
       _incomingMovements := []; _startShift := None; _endShift := None;
       _shapePoints := shape; _centerline := ((0, 0), (0, 0))%R;
       _simVolume := ∅; _simMeanTT := ∅ |} in
  set_centerline (centerLineOf self) self.

Definition linkEast := sampleLink 11 nodeO nodeE (Some (-1)%R) 2 [] [].
Definition linkWest := sampleLink 10 nodeE nodeO (Some (-1)%R) 2 [] [].
Definition linkNorth := sampleLink 12 nodeO nodeN (Some (-1)%R) 1 [] [].
Definition linkFan := sampleLink 13 nodeO nodeE (Some (-1)%R) 2 [movA; movB] [].
Definition linkFlat := sampleLink 14 nodeO nodeU (Some (-1)%R) 1 [] [].
Definition linkSlant := sampleLink 15 nodeF nodeU (Some (-1)%R) 1 [] [].
Definition linkThere := sampleLink 16 nodeO nodeO' (Some (-1)%R) 1 [] [].
Definition linkBack := sampleLink 17 nodeO' nodeO (Some (-1)%R) 1 [] [].
Definition linkAuto := sampleLink 19 nodeO nodeE None 2 [] [].

(** The table-backed movement keeps no travel time. *)
#[global] Instance TableMovement_times : MovementTT TableMovement :=
  {| mov_setSimTTInMin := λ m _ _ _, (m, Ok tt) |}.

Definition linkSingle := sampleLink 20 nodeO nodeE (Some (-1)%R) 2 [movA] [].
Definition linkLoaded : RoadLink TableMovement unit :=
  set_simVolume (<[(0, 15) := 100]> ∅) linkEast.

(** A junction: the link 21 from [nodeO] to [nodeE], the link 22 from
    [nodeE] to [nodeN], and the movement from the first into the second. *)
Definition junctionLink (id : positive) (startNode endNode : Node)
    : RoadLink MovementObj unit :=
  let self :=
    {| link_ident := id; _id := Z.pos id;
       _startNode := startNode; _endNode := endNode; _label := None;
       _reverseAttachedLinkId := None; _facilityType := 1;
       _length := Some (-1)%R; _freeflowSpeed := 30;
       _effectiveLengthFactor := 1; _responseTimeFactor := 1;
       _numLanes := 1; _roundAbout := false; _level := 0;
       _lanePermissions := ∅; _outgoingMovements := [];
       _incomingMovements := []; _startShift := None; _endShift := None;
       _shapePoints := []; _centerline := ((0, 0), (0, 0))%R;
       _simVolume := ∅; _simMeanTT := ∅ |} in
  set_centerline (centerLineOf self) self.

Definition linkIn := junctionLink 21 nodeO nodeE.
Definition linkOut := junctionLink 22 nodeE nodeN.
Definition junction : gmap positive (RoadLink MovementObj unit) :=
  <[21%positive := linkIn]> (<[22%positive := linkOut]> ∅).
Definition turn : MovementObj := mkMovementObj 31 21 22 nodeN.
Definition strayTurn : MovementObj := mkMovementObj 32 22 21 nodeO.

(** ** Properties of the simulation series *)

Section SimulationSeries.

Context {Mv Vcg : Type} `{Movement Mv}.
Variable clock : SimClock.
Implicit Types (l : RoadLink Mv Vcg) (s e : Z).

Ltac zcases :=
  rewrite ?Z.geb_leb, ?Z.gtb_ltb;
  repeat match goal with
  | |- context [?a <=? ?b] => destruct (Z.leb_spec a b); try lia
  | |- context [?a <? ?b] => destruct (Z.ltb_spec a b); try lia
  | |- context [?a =? ?b] => destruct (Z.eqb_spec a b); try lia
  end; simpl.

Lemma validateInputTimes_ok l s e :
  inHorizon clock s e → _validateInputTimes clock s e l = (l, Ok tt).
Proof.
  intros (Hs & Hlt & He). unfold _validateInputTimes.
  zcases. reflexivity.
Qed.

Lemma checkInputTimeStep_ok l s e :
  e - s = simTimeStepInMin clock → _checkInputTimeStep clock s e l = (l, Ok tt).
Proof.
  intros Hstep. unfold _checkInputTimeStep. zcases. reflexivity.
Qed.

Lemma checkOutputTimeStep_ok l s e :
  simTimeStepInMin clock ≠ 0 → (e - s) mod simTimeStepInMin clock = 0 →
  _checkOutputTimeStep clock s e l = (l, Ok tt).
Proof.
  intros Hnz Hmod. unfold _checkOutputTimeStep, bind, lift, py_mod.
  destruct (Z.eqb_spec (simTimeStepInMin clock) 0); [lia|].
  rewrite Hmod. reflexivity.
Qed.

(** *** The native bins of a window *)

Lemma subBins_single s e :
  s < e → e - s = simTimeStepInMin clock → subBins clock s e = [(s, e)].
Proof.
  intros Hlt Hstep. unfold subBins. rewrite <- Hstep.
  rewrite Z.div_same by lia. simpl. f_equal. f_equal; lia.
Qed.

Lemma subBins_valid s e b :
  0 < simTimeStepInMin clock → inHorizon clock s e →
  (e - s) mod simTimeStepInMin clock = 0 →
  b ∈ subBins clock s e →
  inHorizon clock b.1 b.2 ∧ b.2 - b.1 = simTimeStepInMin clock.
Proof.
  intros Hpos (Hs & Hlt & He) Hmod Hin. unfold subBins in Hin.
  set (step := simTimeStepInMin clock) in *.
  apply list_elem_of_fmap in Hin as (i & -> & Hi).
  apply elem_of_seq in Hi. simpl.
  assert (Hq : e - s = step * ((e - s) / step))
    by (apply Z.div_exact; [lia | exact Hmod]).
  assert (Hle : Z.of_nat i + 1 ≤ (e - s) / step) by lia.
  unfold inHorizon; simpl. repeat split; try nia.
Qed.

(** *** Reading the link's own series *)

(** With no outgoing movement [getSimVolume] takes the branch that calls
    [pairwise]: whatever the window, the call returns no volume and leaves
    the link as it is. *)
Lemma getSimVolume_own_raises l s e :
  _outgoingMovements l = [] →
  ∃ err, getSimVolume clock s e l = (l, Raise err).
Proof.
  intros Hout.
  unfold getSimVolume, bind, _validateInputTimes, _checkOutputTimeStep, bind,
    getNumOutgoingMovements, attr, lift, raise, ret, pairwise, py_mod.
  repeat (case_match; simplify_eq; try (eexists; reflexivity)).
  all: rewrite Hout in *; discriminate.
Qed.

(** For a window made of whole bins what is raised is the [NameError]. *)
Lemma getSimVolume_own l s e :
  _outgoingMovements l = [] →
  simTimeStepInMin clock ≠ 0 → inHorizon clock s e →
  (e - s) mod simTimeStepInMin clock = 0 →
  getSimVolume clock s e l = (l, Raise NameError).
Proof.
  intros Hout Hnz Hwin Hmod. unfold getSimVolume.
  unfold bind at 1. rewrite validateInputTimes_ok by exact Hwin.
  unfold bind at 1. rewrite checkOutputTimeStep_ok by assumption.
  unfold bind at 1, getNumOutgoingMovements, attr. rewrite Hout. reflexivity.
Qed.

(** With outgoing movements, [getSimVolume] asks the movements and leaves
    the link as it is. *)
Lemma getSimVolume_movements l s e :
  _outgoingMovements l ≠ [] →
  simTimeStepInMin clock ≠ 0 → inHorizon clock s e →
  (e - s) mod simTimeStepInMin clock = 0 →
  getSimVolume clock s e l
  = (l, sumMovementVolumes (_outgoingMovements l) s e).
Proof.
  intros Hout Hnz Hwin Hmod. unfold getSimVolume.
  unfold bind at 1. rewrite validateInputTimes_ok by exact Hwin.
  unfold bind at 1. rewrite checkOutputTimeStep_ok by assumption.
  unfold bind at 1, getNumOutgoingMovements, attr.
  destruct (_outgoingMovements l) as [|m ms] eqn:Hm; [congruence|].
  replace (Z.of_nat (length (m :: ms)) >? 0) with true
    by (symmetry; apply Z.gtb_lt; simpl; lia).
  unfold bind, lift. rewrite Hm. reflexivity.
Qed.

(** *** Writing the link's own series *)

Lemma hasVolumes_nil s e : hasVolumes ([] : list Mv) s e = Ok false.
Proof. reflexivity. Qed.

Lemma hasVolumes_raise (movs : list Mv) s e err :
  hasVolumes movs s e = Raise err →
  ∃ mov, mov ∈ movs ∧ mov_getSimVolume mov s e = Raise err.
Proof.
  induction movs as [|m ms IH]; simpl; [discriminate|].
  destruct (mov_getSimVolume m s e) as [v|err'] eqn:Hm.
  - destruct (v >? 0); [discriminate|].
    intros Hr. destruct (IH Hr) as (mov & Hin & Hmov).
    exists mov. split; [right; exact Hin | exact Hmov].
  - intros [= ->]. exists m. split; [left | exact Hm].
Qed.

Lemma setSimVolume_own l s e v :
  _outgoingMovements l = [] → inHorizon clock s e →
  e - s = simTimeStepInMin clock →
  setSimVolume clock s e v l
  = (set_simVolume (<[(s, e) := v]> (_simVolume l)) l, Ok tt).
Proof.
  intros Hout Hwin Hstep. unfold setSimVolume.
  unfold bind at 1. rewrite validateInputTimes_ok by exact Hwin.
  unfold bind at 1. rewrite checkInputTimeStep_ok by exact Hstep.
  unfold bind at 1, _hasMovementVolumes, bind at 1, attr, lift.
  rewrite Hout, hasVolumes_nil.
  unfold bind, getNumOutgoingMovements, attr. rewrite Hout. reflexivity.
Qed.

(** C1: on a link with no outgoing movement, for a window of the simulation
    horizon that is exactly one native bin, [setSimVolume(s, e, v)] succeeds
    and stores [v] under the bin, but the following [getSimVolume(s, e)]
    does not return [v]: it raises [NameError] at its call of [pairwise],
    a name RoadLink.py does not bind, and leaves the link as the write
    left it. *)
Theorem C1_getSimVolume_raises_NameError l s e v :
  _outgoingMovements l = [] →
  inHorizon clock s e →
  e - s = simTimeStepInMin clock →
  ∃ l', setSimVolume clock s e v l = (l', Ok tt)
        ∧ _simVolume l' !! (s, e) = Some v
        ∧ getSimVolume clock s e l' = (l', Raise NameError).
Proof.
  intros Hout Hwin Hstep.
  assert (Hlt : s < e) by (destruct Hwin as (_ & ? & _); assumption).
  eexists. split; [apply setSimVolume_own; assumption|].
  split; [apply lookup_insert_eq|].
  apply getSimVolume_own; [exact Hout | lia | exact Hwin |].
  rewrite <- Hstep. apply Z_mod_same_full.
Qed.

(** C3: on a link with two or more outgoing movements, for a window of the
    simulation horizon that is exactly one native bin, [setSimVolume] raises
    a [DtaError] whatever the volume, and the link, its own series map
    included, is left as it was.  The movements are asked for their volumes
    first: what they raise, if they raise, is assumed to be a [DtaError]. *)
Theorem C3_setSimVolume_fails_with_several_movements l s e v :
  (2 ≤ length (_outgoingMovements l))%nat →
  inHorizon clock s e →
  e - s = simTimeStepInMin clock →
  Forall (movementRaisesDtaOnly s e) (_outgoingMovements l) →
  ∃ l' err, setSimVolume clock s e v l = (l', Raise err)
            ∧ isDtaError err = true
            ∧ _simVolume l' = _simVolume l
            ∧ l' = l.
Proof.
  intros Hlen Hwin Hstep Hdta. unfold setSimVolume.
  unfold bind at 1. rewrite validateInputTimes_ok by exact Hwin.
  unfold bind at 1. rewrite checkInputTimeStep_ok by exact Hstep.
  unfold bind at 1, _hasMovementVolumes, bind at 1, attr, lift.
  destruct (hasVolumes (_outgoingMovements l) s e) as [[|]|err] eqn:Hhas.
  - exists l, (DtaError MovementWithVolume). repeat split.
  - unfold bind, getNumOutgoingMovements, attr.
    replace (Z.of_nat (length (_outgoingMovements l)) >? 1) with true
      by (symmetry; apply Z.gtb_lt; lia).
    exists l, (DtaError MoreThanOneMovement). repeat split.
  - exists l, err. repeat split.
    apply hasVolumes_raise in Hhas as (mov & Hin & Hmov).
    rewrite Forall_forall in Hdta. exact (Hdta mov Hin err Hmov).
Qed.

(** *** Additivity over the bins of a window *)

Lemma Zsum_zero {A : Type} (xs : list A) : Zsum ((λ _, 0) <$> xs) = 0.
Proof. induction xs as [|x xs IH]; simpl; [reflexivity | exact IH]. Qed.

Lemma Zsum_add {A : Type} (f g : A → Z) (xs : list A) :
  Zsum ((λ x, f x + g x) <$> xs) = Zsum (f <$> xs) + Zsum (g <$> xs).
Proof.
  induction xs as [|x xs IH]; [reflexivity|].
  rewrite !fmap_cons. cbn [Zsum foldr]. fold (Zsum ((λ x, f x + g x) <$> xs)).
  fold (Zsum (f <$> xs)). fold (Zsum (g <$> xs)). rewrite IH. lia.
Qed.

Lemma Zsum_swap {A B : Type} (g : A → B → Z) (xs : list A) (ys : list B) :
  Zsum ((λ x, Zsum (g x <$> ys)) <$> xs)
  = Zsum ((λ y, Zsum ((λ x, g x y) <$> xs)) <$> ys).
Proof.
  induction xs as [|x xs IH].
  - simpl. symmetry. apply Zsum_zero.
  - rewrite fmap_cons. cbn [Zsum foldr].
    fold (Zsum ((λ x, Zsum (g x <$> ys)) <$> xs)). rewrite IH.
    rewrite <- Zsum_add. reflexivity.
Qed.

Lemma sumMovementOverBins_Ok (mov : Mv) (bins : list (Z * Z)) (V : Z) :
  sumMovementOverBins mov bins = Ok V →
  V = Zsum (movementVolume mov <$> bins)
  ∧ Forall (λ b, mov_getSimVolume mov b.1 b.2 = Ok (movementVolume mov b)) bins.
Proof.
  revert V. induction bins as [|b bins IH]; intros V; simpl.
  - intros [= <-]. split; [reflexivity | constructor].
  - destruct (mov_getSimVolume mov b.1 b.2) as [v|err] eqn:Hb; [|discriminate].
    destruct (sumMovementOverBins mov bins) as [rest|err]; [|discriminate].
    intros [= <-]. destruct (IH rest eq_refl) as [-> Hall].
    assert (Hv : movementVolume mov b = v)
      by (unfold movementVolume; rewrite Hb; reflexivity).
    split.
    + rewrite Hv. reflexivity.
    + constructor; [rewrite Hv; exact Hb | exact Hall].
Qed.

Lemma sumMovementVolumes_bin (movs : list Mv) (b : Z * Z) :
  Forall (λ mov, mov_getSimVolume mov b.1 b.2 = Ok (movementVolume mov b)) movs →
  sumMovementVolumes movs b.1 b.2 = Ok (Zsum ((λ mov, movementVolume mov b) <$> movs)).
Proof.
  induction 1 as [|mov movs Hmov _ IH]; [reflexivity|].
  simpl. rewrite Hmov, IH. reflexivity.
Qed.

Lemma sumMovementVolumes_window (movs : list Mv) s e :
  Forall (movementAdditive clock s e) movs →
  sumMovementVolumes movs s e
  = Ok (Zsum ((λ mov, Zsum (movementVolume mov <$> subBins clock s e)) <$> movs)).
Proof.
  induction 1 as [|mov movs (V & Hwhole & Hbins) _ IH]; [reflexivity|].
  simpl. rewrite Hwhole, IH.
  apply sumMovementOverBins_Ok in Hbins as [-> _]. reflexivity.
Qed.

Lemma accumulate_getSimVolume_movements (bins : list (Z * Z)) (acc : Z) l :
  _outgoingMovements l ≠ [] → 0 < simTimeStepInMin clock →
  Forall (λ b, inHorizon clock b.1 b.2 ∧ b.2 - b.1 = simTimeStepInMin clock)
    bins →
  Forall (λ b, Forall (λ mov, mov_getSimVolume mov b.1 b.2
                              = Ok (movementVolume mov b))
                 (_outgoingMovements l)) bins →
  accumulate bins (λ b, getSimVolume clock b.1 b.2) acc l
  = (l, Ok (acc + Zsum ((λ b, Zsum ((λ mov, movementVolume mov b)
                                      <$> _outgoingMovements l)) <$> bins))).
Proof.
  intros Hout Hpos Hbins. revert acc.
  induction Hbins as [|b bins [Hwin Hstep] _ IH]; intros acc Hreads.
  - simpl. unfold ret. rewrite Z.add_0_r. reflexivity.
  - inversion Hreads as [|? ? Hb Hrest]; subst.
    simpl. unfold bind at 1.
    rewrite getSimVolume_movements; try assumption; try lia.
    + rewrite sumMovementVolumes_bin by exact Hb.
      rewrite IH by exact Hrest. rewrite <- Z.add_assoc. reflexivity.
    + rewrite Hstep. apply Z_mod_same_full.
Qed.

(** X5: a link with outgoing movements relays [getSimVolume] to them and is
    left as it is.  For a window of the horizon made of whole bins, when
    each movement answers the window with the sum of its answers for the
    native bins of the window, so does the link: the volume of the window
    is the sum of [getSimVolume] over the native bins, namely the volumes
    of the movements summed over the bins. *)
Theorem getSimVolume_additive_with_movements l s e :
  _outgoingMovements l ≠ [] →
  0 < simTimeStepInMin clock →
  inHorizon clock s e →
  (e - s) mod simTimeStepInMin clock = 0 →
  Forall (movementAdditive clock s e) (_outgoingMovements l) →
  ∃ V, getSimVolume clock s e l = (l, Ok V)
       ∧ sumSimVolumeOverBins clock (subBins clock s e) l = (l, Ok V)
       ∧ V = Zsum ((λ mov, Zsum (movementVolume mov <$> subBins clock s e))
                     <$> _outgoingMovements l).
Proof.
  intros Hne Hpos Hwin Hmod Hadd.
  assert (Hvalid : Forall (λ b, inHorizon clock b.1 b.2
                                ∧ b.2 - b.1 = simTimeStepInMin clock)
                     (subBins clock s e)).
  { rewrite Forall_forall. intros b Hb. apply (subBins_valid s e); assumption. }
  unfold sumSimVolumeOverBins.
  assert (Hreads : Forall (λ b, Forall (λ mov, mov_getSimVolume mov b.1 b.2
                                               = Ok (movementVolume mov b))
                                  (_outgoingMovements l)) (subBins clock s e)).
  { rewrite Forall_forall. intros b Hb. rewrite Forall_forall. intros mov Hmov.
    rewrite Forall_forall in Hadd. destruct (Hadd mov Hmov) as (V & _ & Hbins).
    apply sumMovementOverBins_Ok in Hbins as [_ Hall].
    rewrite Forall_forall in Hall. exact (Hall b Hb). }
  eexists. split.
  { rewrite getSimVolume_movements; try assumption; try lia.
    rewrite sumMovementVolumes_window by exact Hadd. reflexivity. }
  rewrite accumulate_getSimVolume_movements by assumption.
  rewrite <- Zsum_swap.
  split; reflexivity.
Qed.

(** The first native bin of a non-empty aligned window. *)
Lemma subBins_first s e :
  0 < simTimeStepInMin clock → s < e →
  (e - s) mod simTimeStepInMin clock = 0 →
  ∃ rest, subBins clock s e = (s, s + simTimeStepInMin clock) :: rest.
Proof.
  intros Hpos Hlt Hmod. unfold subBins.
  set (step := simTimeStepInMin clock) in *.
  assert (Hq : e - s = step * ((e - s) / step))
    by (apply Z.div_exact; [lia | exact Hmod]).
  assert (1 ≤ (e - s) / step) by nia.
  destruct (Z.to_nat ((e - s) / step)) as [|n] eqn:Hn; [lia|].
  eexists. simpl. f_equal. f_equal; lia.
Qed.

(** C2: on a link with no outgoing movement, for a window of the simulation
    horizon whose length is a multiple of the (positive) time step,
    [getSimVolume(s, e)] does not return the sum of the link's own bins:
    it raises [NameError] at its call of [pairwise], a name RoadLink.py
    does not bind, and so does the sum of [getSimVolume] over the native
    bins of the window, at the first bin.  Neither call reads or changes
    the link's series. *)
Theorem C2_getSimVolume_own_series_raises l s e :
  _outgoingMovements l = [] →
  0 < simTimeStepInMin clock →
  inHorizon clock s e →
  (e - s) mod simTimeStepInMin clock = 0 →
  getSimVolume clock s e l = (l, Raise NameError)
  ∧ sumSimVolumeOverBins clock (subBins clock s e) l = (l, Raise NameError).
Proof.
  intros Hout Hpos Hwin Hmod.
  split; [apply getSimVolume_own; [exact Hout | lia | exact Hwin | exact Hmod]|].
  destruct Hwin as (Hs & Hlt & He).
  destruct (subBins_first s e Hpos Hlt Hmod) as (rest & Hbins).
  assert (Hin : (s, s + simTimeStepInMin clock) ∈ subBins clock s e)
    by (rewrite Hbins; left).
  apply (subBins_valid s e) in Hin as [Hwin1 Hstep1];
    [| exact Hpos | repeat split; assumption | exact Hmod].
  simpl in Hwin1, Hstep1.
  unfold sumSimVolumeOverBins. rewrite Hbins. simpl. unfold bind. simpl.
  rewrite getSimVolume_own; [reflexivity | exact Hout | lia | exact Hwin1 |].
  rewrite Hstep1. apply Z_mod_same_full.
Qed.

(** *** The lane count is not touched by the series methods *)

Lemma getSimVolume_numLanes l s e :
  _numLanes (getSimVolume clock s e l).1 = _numLanes l.
Proof.
  unfold getSimVolume, bind, _validateInputTimes, _checkOutputTimeStep, bind,
    getNumOutgoingMovements, attr, lift, raise, ret, pairwise.
  repeat (case_match; simplify_eq; try reflexivity).
Qed.

Lemma setSimVolume_numLanes l s e v :
  _numLanes (setSimVolume clock s e v l).1 = _numLanes l.
Proof.
  unfold setSimVolume, bind, _validateInputTimes, _checkInputTimeStep,
    _hasMovementVolumes, bind, getNumOutgoingMovements, attr, lift, raise,
    ret, store.
  repeat (case_match; simplify_eq; try reflexivity).
Qed.

End SimulationSeries.

Example sampleLink_is_constructed :
  __init__ 11 11 nodeO nodeE None 1 (Some (-1)%R) 30 1 1 2 false None None
  = Ok linkEast.
Proof. reflexivity. Qed.

Lemma C1_witness :
  (_outgoingMovements linkEast = []
   ∧ inHorizon clock15 0 15
   ∧ 15 - 0 = simTimeStepInMin clock15)
  ∧ ∃ l', setSimVolume clock15 0 15 100 linkEast = (l', Ok tt)
          ∧ _simVolume l' !! (0, 15) = Some 100
          ∧ getSimVolume clock15 0 15 l' = (l', Raise NameError).
Proof.
  assert (Hwin : inHorizon clock15 0 15) by (unfold inHorizon; simpl; lia).
  split; [repeat split; apply Hwin|].
  apply (C1_getSimVolume_raises_NameError clock15 linkEast 0 15 100).
  - reflexivity.
  - exact Hwin.
  - reflexivity.
Defined.

Lemma C2_witness :
  (_outgoingMovements linkLoaded = []
   ∧ 0 < simTimeStepInMin clock15
   ∧ inHorizon clock15 0 30
   ∧ (30 - 0) mod simTimeStepInMin clock15 = 0)
  ∧ getSimVolume clock15 0 30 linkLoaded = (linkLoaded, Raise NameError)
  ∧ sumSimVolumeOverBins clock15 (subBins clock15 0 30) linkLoaded
    = (linkLoaded, Raise NameError).
Proof.
  assert (Hwin : inHorizon clock15 0 30) by (unfold inHorizon; simpl; lia).
  split; [split; [reflexivity | split; [simpl; lia | split; [exact Hwin | reflexivity]]]|].
  apply (C2_getSimVolume_own_series_raises clock15 linkLoaded 0 30).
  - reflexivity.
  - simpl; lia.
  - exact Hwin.
  - reflexivity.
Defined.

Lemma C3_witness :
  ((2 ≤ length (_outgoingMovements linkFan))%nat
   ∧ inHorizon clock15 0 15
   ∧ 15 - 0 = simTimeStepInMin clock15
   ∧ Forall (movementRaisesDtaOnly 0 15) (_outgoingMovements linkFan))
  ∧ ∃ l' err, setSimVolume clock15 0 15 100 linkFan = (l', Raise err)
              ∧ isDtaError err = true
              ∧ _simVolume l' = _simVolume linkFan
              ∧ l' = linkFan.
Proof.
  assert (Hwin : inHorizon clock15 0 15) by (unfold inHorizon; simpl; lia).
  assert (Hdta : Forall (movementRaisesDtaOnly 0 15)
                   (_outgoingMovements linkFan))
    by (repeat constructor; intros err Herr; vm_compute in Herr; discriminate).
  split; [split; [simpl; lia | split; [exact Hwin | split; [reflexivity | exact Hdta]]]|].
  apply (C3_setSimVolume_fails_with_several_movements clock15 linkFan 0 15 100).
  - simpl; lia.
  - exact Hwin.
  - reflexivity.
  - exact Hdta.
Defined.

(** The scenario of the specification: horizon [0, 60], step 15. *)
Example scenario_write_stored :
  _simVolume (setSimVolume clock15 0 15 100 linkEast).1 = <[(0, 15) := 100]> ∅.
Proof. reflexivity. Qed.

Example scenario_two_bins :
  getSimVolume clock15 0 30 (setSimVolume clock15 0 15 100 linkEast).1
  = (linkLoaded, Raise NameError).
Proof. reflexivity. Qed.

Example scenario_unaligned_window :
  (getSimVolume clock15 0 20 linkEast).2
  = Raise (DtaError (NotMultipleOfTimeStep 0 20)).
Proof. reflexivity. Qed.

Example scenario_relayed_to_movements :
  (getSimVolume clock15 0 30 linkFan).2 = Ok 14.
Proof. reflexivity. Qed.

(** ** Properties of the constructor and the plain accessors *)

Section Accessors.

Context {Mv Vcg : Type}.
Implicit Types (l : RoadLink Mv Vcg).

Lemma init_rejects_nonpositive_lanes ident id startNode endNode rev ft len ffs
    elf rtf numLanes ra level label :
  numLanes ≤ 0 →
  __init__ (Mv := Mv) (Vcg := Vcg) ident id startNode endNode rev ft len ffs
    elf rtf numLanes ra level label
  = Raise (DtaError (NumLanesNotPositive numLanes)).
Proof.
  intros Hn. unfold __init__.
  destruct (Z.leb_spec numLanes 0); [reflexivity | lia].
Qed.

Lemma init_numLanes_positive ident id startNode endNode rev ft len ffs elf rtf
    numLanes ra level label l :
  __init__ ident id startNode endNode rev ft len ffs elf rtf numLanes ra level
    label = Ok l →
  0 < getNumLanes l ∧ _length l = len ∧ _shapePoints l = []
  ∧ _outgoingMovements l = [] ∧ _simVolume l = ∅.
Proof.
  unfold __init__. destruct (Z.leb_spec numLanes 0); [discriminate|].
  intros [= <-]. repeat split. exact H.
Qed.

Lemma setNumLanes_stores (n : Z) l :
  setNumLanes n l = (set_numLanes n l, Ok tt)
  ∧ getNumLanes (set_numLanes n l) = n.
Proof. split; reflexivity. Qed.

Lemma addShapePoint_numLanes (x y : R) l :
  _numLanes (addShapePoint x y l).1 = _numLanes l.
Proof. reflexivity. Qed.

Lemma addShifts_numLanes (a b : R) l :
  _numLanes (addShifts a b l).1 = _numLanes l.
Proof. reflexivity. Qed.

Lemma addLanePermission_numLanes (laneId : Z) (g : Vcg) l :
  _numLanes (addLanePermission laneId g l).1 = _numLanes l.
Proof.
  unfold addLanePermission, bind, attr, raise, store.
  destruct (_ || _); reflexivity.
Qed.

Lemma getCenterLine_numLanes l : _numLanes (getCenterLine l).1 = _numLanes l.
Proof. reflexivity. Qed.

Lemma getLength_None l : _length l = None → getLength l = None.
Proof. intros Hlen. unfold getLength. rewrite Hlen. reflexivity. Qed.

Lemma getLength_stored l (len : R) :
  _length l = Some len → len ≠ (-1)%R → getLength l = Some len.
Proof.
  intros Hlen Hne. unfold getLength. rewrite Hlen.
  rewrite bool_decide_eq_false_2 by exact Hne. reflexivity.
Qed.

Lemma getLength_sentinel l :
  _length l = Some (-1)%R → getLength l = Some (euclideanLength l).
Proof.
  intros Hlen. unfold getLength. rewrite Hlen.
  rewrite bool_decide_eq_true_2 by reflexivity. reflexivity.
Qed.

End Accessors.

(** ** Properties of the geometry *)

Section Geometry.

Context {Mv Vcg : Type}.
Implicit Types (l self other : RoadLink Mv Vcg).
Local Open Scope R_scope.

Ltac decide_true := rewrite bool_decide_eq_true_2 by lra.
Ltac decide_false := rewrite bool_decide_eq_false_2 by lra.

(** *** Orientation and direction *)

Lemma degrees_range (a : R) : 0 <= a < 2 * PI → 0 <= a * 180 / PI < 360.
Proof.
  intros [Hlo Hhi]. pose proof PI_RGT_0 as Hpi.
  assert (Hinv : 0 < / PI) by (apply Rinv_0_lt_compat; lra).
  assert (Hone : PI * / PI = 1) by (apply Rinv_r; lra).
  unfold Rdiv. split; nra.
Qed.

Lemma atan_nonneg (x : R) : 0 <= x → 0 <= atan x.
Proof.
  intros [Hpos|<-].
  - left. rewrite <- atan_0. apply atan_increasing. exact Hpos.
  - rewrite atan_0. lra.
Qed.

Lemma atan_quotient_range (a b : R) :
  b ≠ 0 → 0 <= atan (Rabs a / Rabs b) < PI / 2.
Proof.
  intros Hb. split.
  - apply atan_nonneg. apply Rmult_le_pos; [apply Rabs_pos|].
    left. apply Rinv_0_lt_compat, Rabs_pos_lt, Hb.
  - apply atan_bound.
Qed.

Lemma bearing_range (p1 p2 : Point) : 0 <= bearing p1 p2 < 360.
Proof.
  destruct p1 as [x1 y1], p2 as [x2 y2]. unfold bearing.
  pose proof PI_RGT_0 as Hpi.
  apply degrees_range.
  repeat case_bool_decide; simpl;
    try (pose proof (atan_quotient_range (y2 - y1) (x2 - x1) ltac:(lra)); lra);
    try (pose proof (atan_quotient_range (x2 - x1) (y2 - y1) ltac:(lra)); lra);
    lra.
Qed.

(** X20: off the one-shape-point case, [getOrientation] returns a bearing in
    [0, 360): of the last two shape points when there are some, of the two
    nodes otherwise. *)
Lemma getOrientation_range l :
  length (_shapePoints l) ≠ 1%nat →
  ∃ o, getOrientation l = Ok o ∧ 0 <= o < 360.
Proof.
  intros Hlen. unfold getOrientation, orientationPoints.
  destruct (_shapePoints l) as [|p ps] eqn:Hsp.
  - eexists. split; [reflexivity | apply bearing_range].
  - assert (Hrev : (2 ≤ length (rev (p :: ps)))%nat).
    { rewrite length_rev. destruct ps; simpl in *; [congruence | lia]. }
    unfold getitem_neg.
    destruct (rev (p :: ps)) as [|q1 [|q2 qs]]; simpl in Hrev; try lia.
    simpl. eexists. split; [reflexivity | apply bearing_range].
Qed.

Lemma getOrientation_identical_points l :
  _shapePoints l = [] →
  getX (getStartNode l) = getX (getEndNode l) →
  getY (getStartNode l) = getY (getEndNode l) →
  getOrientation l = Ok 0.
Proof.
  intros Hsp Hx Hy. unfold getOrientation, orientationPoints, bearing.
  rewrite Hsp, Hx, Hy.
  repeat case_bool_decide; simpl; try lra.
  f_equal. unfold Rdiv. ring.
Qed.

Lemma directionOf_buckets (o : R) :
  0 <= o < 360 →
  (directionOf o = DIR_NB ↔ 315 <= o < 360 ∨ 0 <= o < 45)
  ∧ (directionOf o = DIR_EB ↔ 45 <= o < 135)
  ∧ (directionOf o = DIR_SB ↔ 135 <= o < 225)
  ∧ (directionOf o = DIR_WB ↔ 225 <= o < 315).
Proof.
  intros Ho. unfold directionOf.
  repeat case_bool_decide; simpl;
    repeat split; intros; try discriminate; try lra;
    try (left; lra); try (right; lra);
    repeat match goal with H : _ ∨ _ |- _ => destruct H end; lra.
Qed.

Lemma bearing_due_east : bearing (0, 0) (10, 0) = 90.
Proof.
  unfold bearing. pose proof PI_RGT_0 as Hpi.
  repeat case_bool_decide; simpl; try lra.
  replace (Rabs (0 - 0) / Rabs (10 - 0)) with 0.
  - rewrite atan_0. field. lra.
  - rewrite Rminus_diag, Rabs_R0. unfold Rdiv. ring.
Qed.

(** C8: when [getOrientation] returns a value in [0, 360), [getDirection]
    returns one direction, which is NB exactly on [315,360) and [0,45), EB
    exactly on [45,135), SB exactly on [135,225) and WB exactly on
    [225,315); and a link without shape points from (0,0) to (10,0) has
    orientation 90 and direction EB. *)
Theorem C8_getDirection_buckets l (o : R) :
  getOrientation l = Ok o →
  0 <= o < 360 →
  (∃ d, getDirection l = Ok d
        ∧ (d = DIR_NB ↔ 315 <= o < 360 ∨ 0 <= o < 45)
        ∧ (d = DIR_EB ↔ 45 <= o < 135)
        ∧ (d = DIR_SB ↔ 135 <= o < 225)
        ∧ (d = DIR_WB ↔ 225 <= o < 315))
  ∧ (_shapePoints l = [] →
     (getX (getStartNode l), getY (getStartNode l)) = (0, 0) →
     (getX (getEndNode l), getY (getEndNode l)) = (10, 0) →
     o = 90 ∧ getDirection l = Ok DIR_EB).
Proof.
  intros Hor Ho. split.
  - exists (directionOf o). unfold getDirection. rewrite Hor.
    split; [reflexivity | apply directionOf_buckets, Ho].
  - intros Hsp Hstart Hend.
    assert (Ho90 : o = 90).
    { unfold getOrientation, orientationPoints in Hor.
      rewrite Hsp, Hstart, Hend in Hor. injection Hor as <-.
      apply bearing_due_east. }
    split; [exact Ho90|]. unfold getDirection. rewrite Hor. f_equal.
    subst o. unfold directionOf. repeat case_bool_decide; simpl; try lra.
    reflexivity.
Qed.

Lemma getOrientation_last_two l (ps : list Point) (p1 p2 : Point) :
  _shapePoints l = ps ++ [p1; p2] → getOrientation l = Ok (bearing p1 p2).
Proof.
  intros Hsp. unfold getOrientation, orientationPoints, getitem_neg.
  rewrite Hsp, rev_app_distr. simpl.
  destruct (ps ++ [p1; p2]) eqn:E; [destruct ps; discriminate|]. reflexivity.
Qed.

Lemma getOrientation_no_shape l :
  _shapePoints l = [] →
  getOrientation l = Ok (bearing (startPoint l) (endPoint l)).
Proof.
  intros Hsp. unfold getOrientation, orientationPoints. rewrite Hsp.
  reflexivity.
Qed.

Lemma getOrientation_one_shape_point l (p : Point) :
  _shapePoints l = [p] → getOrientation l = Raise IndexError.
Proof.
  intros Hsp. unfold getOrientation, orientationPoints. rewrite Hsp.
  reflexivity.
Qed.

(** *** Centerline and outline *)

Lemma sqrt_of_squares (a b c : R) :
  0 <= c → a ^ 2 + b ^ 2 = c * c → sqrt (a ^ 2 + b ^ 2) = c.
Proof. intros Hc ->. apply sqrt_square, Hc. Qed.

Lemma getCenterLine_value l : (getCenterLine l).2 = Ok (centerLineOf l).
Proof. reflexivity. Qed.

Lemma centerLine_due_north l :
  startPoint l = (0, 0) → endPoint l = (0, 10) → getNumLanes l = 1%Z →
  centerLineOf l = ((6, 0), (6, 10)).
Proof.
  unfold startPoint, endPoint, getStartNode, getEndNode.
  intros [= Hsx Hsy] [= Hex Hey] Hn.
  unfold centerLineOf, euclideanLength, DEFAULT_LANE_WIDTH_FEET.
  rewrite Hsx, Hsy, Hex, Hey, Hn.
  rewrite (sqrt_of_squares _ _ 10) by lra. decide_false.
  repeat f_equal; lra.
Qed.

Lemma getOutline_due_north l :
  startPoint l = (0, 0) → endPoint l = (0, 10) → getNumLanes l = 1%Z →
  getOutline 1 l = ((0, 0), (0, 10), (12, 10), (12, 0)).
Proof.
  unfold startPoint, endPoint, getStartNode, getEndNode.
  intros [= Hsx Hsy] [= Hex Hey] Hn.
  unfold getOutline, euclideanLength, DEFAULT_LANE_WIDTH_FEET.
  rewrite Hsx, Hsy, Hex, Hey, Hn.
  rewrite (sqrt_of_squares _ _ 10) by lra. decide_false.
  repeat f_equal; lra.
Qed.

(** C9 (as the code has it): for a link from (0,0) to (0,10) with one lane, the lane
    width being 12 feet, [getCenterLine] returns the segment moved 6 feet
    at a right angle to the right of the direction of travel, and
    [getOutline(1)] returns the ring (start node, end node, end node
    offset, start node offset), clockwise, whose width is 12 feet. *)
Theorem C9_footprint_due_north l :
  startPoint l = (0, 0) → endPoint l = (0, 10) → getNumLanes l = 1%Z →
  footprint l 6 12.
Proof.
  intros Ha Hb Hn. unfold footprint. cbv zeta.
  rewrite getCenterLine_value, (centerLine_due_north l Ha Hb Hn).
  rewrite (getOutline_due_north l Ha Hb Hn), Ha, Hb.
  split.
  - exists (6, 0). unfold vadd, vsub, dot, cross, norm. cbn [fst snd].
    split; [repeat f_equal; lra|]. split; [lra|]. split; [lra|].
    apply sqrt_of_squares; lra.
  - exists (12, 0). unfold vadd, vsub, dot, norm, clockwise, signedArea2, cross.
    cbn [fst snd].
    split; [repeat f_equal; lra|]. split; [lra|].
    split; [apply sqrt_of_squares; lra | lra].
Qed.

(** *** Angle between two links *)

Lemma Link_eq_refl self : Link_eq self self = true.
Proof. unfold Link_eq. apply bool_decide_eq_true_2. reflexivity. Qed.

Lemma Link_eq_distinct self other :
  link_ident self ≠ link_ident other → Link_eq self other = false.
Proof. intros Hne. unfold Link_eq. apply bool_decide_eq_false_2, Hne. Qed.

Lemma coordinateShortcut_false self other :
  ¬ coordinateShortcut self other →
  bool_decide (getX (getStartNode self) = getX (getStartNode other))
  && bool_decide (getY (getStartNode self) = getY (getEndNode other))
  && bool_decide (getX (getEndNode self) = getX (getEndNode other))
  && bool_decide (getY (getEndNode self) = getY (getEndNode other)) = false.
Proof.
  intros Hno. apply not_true_iff_false. intros Hyes. apply Hno.
  rewrite !andb_true_iff, !bool_decide_eq_true in Hyes.
  unfold coordinateShortcut. tauto.
Qed.

Lemma reverseShortcut_false self other :
  ¬ reverseShortcut self other →
  Node_eq (getStartNode self) (getEndNode other)
  && Node_eq (getEndNode self) (getStartNode other) = false.
Proof.
  intros Hno. apply not_true_iff_false. intros Hyes. apply Hno.
  unfold Node_eq in Hyes.
  rewrite !andb_true_iff, !bool_decide_eq_true in Hyes. exact Hyes.
Qed.

Lemma reverseShortcut_true self other :
  reversed self other →
  Node_eq (getStartNode self) (getEndNode other)
  && Node_eq (getEndNode self) (getStartNode other) = true.
Proof.
  intros [Hs He]. rewrite Hs, He. unfold Node_eq.
  rewrite !bool_decide_eq_true_2 by reflexivity. reflexivity.
Qed.

Lemma reversed_coordinateShortcut self other :
  reversed self other →
  coordinateShortcut self other ↔ startPoint self = endPoint self.
Proof.
  intros [Hs He]. unfold coordinateShortcut, startPoint, endPoint.
  rewrite <- Hs, <- He. split.
  - intros (Hx & _ & _ & Hy). congruence.
  - intros [= Hx Hy]. repeat split; congruence.
Qed.

Lemma getAcuteAngle_self self : getAcuteAngle self self = Ok 0.
Proof. unfold getAcuteAngle. rewrite Link_eq_refl. reflexivity. Qed.

Lemma getAcuteAngle_reversed self other :
  link_ident self ≠ link_ident other →
  reversed self other → startPoint self ≠ endPoint self →
  getAcuteAngle self other = Ok 180.
Proof.
  intros Hne Hrev Hnz. unfold getAcuteAngle.
  rewrite (Link_eq_distinct _ _ Hne).
  rewrite coordinateShortcut_false
    by (rewrite (reversed_coordinateShortcut _ _ Hrev); exact Hnz).
  rewrite (reverseShortcut_true _ _ Hrev). reflexivity.
Qed.

(** Reversed links between two nodes that have the same coordinates: the
    coordinate shortcut comes first. *)
Lemma getAcuteAngle_reversed_stacked self other :
  link_ident self ≠ link_ident other →
  reversed self other → startPoint self = endPoint self →
  getAcuteAngle self other = Ok 0.
Proof.
  intros Hne Hrev Hz. unfold getAcuteAngle.
  rewrite (Link_eq_distinct _ _ Hne).
  apply (reversed_coordinateShortcut _ _ Hrev) in Hz as (H1 & H2 & H3 & H4).
  rewrite !bool_decide_eq_true_2 by assumption. reflexivity.
Qed.

Lemma getAcuteAngle_zero_length self other :
  link_ident self ≠ link_ident other →
  ¬ coordinateShortcut self other → ¬ reverseShortcut self other →
  euclideanLength self = 0 ∨ euclideanLength other = 0 →
  getAcuteAngle self other
  = Raise (DtaError (ZeroLengthLink
                       (if bool_decide (euclideanLength self = 0)
                        then _id self else _id other))).
Proof.
  intros Hne Hc Hr Hzero. unfold getAcuteAngle.
  rewrite (Link_eq_distinct _ _ Hne), (coordinateShortcut_false _ _ Hc),
    (reverseShortcut_false _ _ Hr).
  cbv zeta. unfold euclideanLength, getStartNode, getEndNode in *.
  case_bool_decide as H1; [reflexivity|].
  destruct Hzero as [Hz|Hz]; [contradiction|].
  rewrite bool_decide_eq_true_2 by exact Hz. reflexivity.
Qed.

Lemma Node_eq_sym (a b : Node) : Node_eq a b = Node_eq b a.
Proof. unfold Node_eq. apply bool_decide_ext. split; congruence. Qed.

Lemma Link_eq_sym self other : Link_eq self other = Link_eq other self.
Proof. unfold Link_eq. apply bool_decide_ext. split; congruence. Qed.

(** X19: off the coordinate shortcut the angle does not depend on which of
    the two links is asked. *)
Lemma getAcuteAngle_symmetric_off_shortcut self other (a b : R) :
  ¬ coordinateShortcut self other → ¬ coordinateShortcut other self →
  getAcuteAngle self other = Ok a → getAcuteAngle other self = Ok b → a = b.
Proof.
  intros Hc1 Hc2. unfold getAcuteAngle.
  rewrite (Link_eq_sym other self).
  destruct (Link_eq self other); [congruence|].
  rewrite (coordinateShortcut_false _ _ Hc1), (coordinateShortcut_false _ _ Hc2).
  rewrite (Node_eq_sym (getStartNode other) (getEndNode self)),
    (Node_eq_sym (getEndNode other) (getStartNode self)).
  rewrite (andb_comm (Node_eq (getEndNode self) (getStartNode other))).
  destruct (Node_eq (getStartNode self) (getEndNode other)
            && Node_eq (getEndNode self) (getStartNode other)); [congruence|].
  cbv zeta.
  set (dx1 := getX (getEndNode self) - getX (getStartNode self)).
  set (dy1 := getY (getEndNode self) - getY (getStartNode self)).
  set (dx2 := getX (getEndNode other) - getX (getStartNode other)).
  set (dy2 := getY (getEndNode other) - getY (getStartNode other)).
  set (len1 := sqrt (dx1 ^ 2 + dy1 ^ 2)).
  set (len2 := sqrt (dx2 ^ 2 + dy2 ^ 2)).
  replace (dx2 * dx1 + dy2 * dy1) with (dx1 * dx2 + dy1 * dy2) by ring.
  replace (len2 * len1) with (len1 * len2) by ring.
  repeat case_bool_decide; congruence.
Qed.

(** C6 (as the code has it): a link makes the angle 0 with itself; two
    distinct links that are each other's reverse make the angle 180,
    provided the start and end nodes have different coordinates; and when
    no shortcut applies and one of the two links has zero Euclidean length,
    [getAcuteAngle] raises a [DtaError] naming the first such link. *)
Theorem C6_getAcuteAngle_special_cases self other :
  link_ident self ≠ link_ident other →
  getAcuteAngle self self = Ok 0
  ∧ (reversed self other → startPoint self ≠ endPoint self →
     getAcuteAngle self other = Ok 180)
  ∧ (¬ coordinateShortcut self other → ¬ reverseShortcut self other →
     euclideanLength self = 0 ∨ euclideanLength other = 0 →
     getAcuteAngle self other
     = Raise (DtaError (ZeroLengthLink
                          (if bool_decide (euclideanLength self = 0)
                           then _id self else _id other)))).
Proof.
  intros Hne. split; [|split].
  - apply getAcuteAngle_self.
  - apply getAcuteAngle_reversed, Hne.
  - apply getAcuteAngle_zero_length, Hne.
Qed.

End Geometry.

(** ** The sample network: what the code does on it *)

Section Samples.

Local Open Scope R_scope.

Ltac decide_true := rewrite bool_decide_eq_true_2 by lra.
Ltac decide_false := rewrite bool_decide_eq_false_2 by lra.
Ltac on_samples :=
  cbn [getStartNode getEndNode _startNode _endNode _id _shapePoints
       linkEast linkWest linkNorth linkFlat linkSlant linkThere linkBack
       sampleLink set_centerline assign getX getY
       nodeO nodeE nodeN nodeU nodeF nodeO'].

Lemma linkEast_orientation : getOrientation linkEast = Ok 90.
Proof.
  unfold getOrientation, orientationPoints. on_samples.
  f_equal. apply bearing_due_east.
Qed.

Lemma C8_witness :
  (getOrientation linkEast = Ok 90 ∧ 0 <= 90 < 360)
  ∧ (∃ d, getDirection linkEast = Ok d
          ∧ (d = DIR_NB ↔ 315 <= 90 < 360 ∨ 0 <= 90 < 45)
          ∧ (d = DIR_EB ↔ 45 <= 90 < 135)
          ∧ (d = DIR_SB ↔ 135 <= 90 < 225)
          ∧ (d = DIR_WB ↔ 225 <= 90 < 315))
  ∧ (_shapePoints linkEast = [] →
     (getX (getStartNode linkEast), getY (getStartNode linkEast)) = (0, 0) →
     (getX (getEndNode linkEast), getY (getEndNode linkEast)) = (10, 0) →
     90 = 90 ∧ getDirection linkEast = Ok DIR_EB).
Proof.
  split; [split; [exact linkEast_orientation | lra]|].
  apply (C8_getDirection_buckets linkEast 90).
  - exact linkEast_orientation.
  - lra.
Defined.

Example linkEast_direction : getDirection linkEast = Ok DIR_EB.
Proof.
  unfold getDirection. rewrite linkEast_orientation. f_equal.
  unfold directionOf. repeat case_bool_decide; simpl; try lra. reflexivity.
Qed.

Lemma C9_witness :
  (startPoint linkNorth = (0, 0) ∧ endPoint linkNorth = (0, 10)
   ∧ getNumLanes linkNorth = 1%Z)
  ∧ footprint linkNorth 6 12.
Proof.
  split; [repeat split|].
  apply (C9_footprint_due_north linkNorth); reflexivity.
Defined.

(** The outline of the one-lane link from (0,0) to (0,10) is 12 feet wide:
    the footprint with a 24 feet wide outline is not what the code returns. *)
Lemma C9_counterexample : ¬ footprint linkNorth 6 24.
Proof.
  intros [_ (off & Hring & _ & Hnorm & _)].
  rewrite (getOutline_due_north linkNorth) in Hring by reflexivity.
  destruct off as [ox oy]. unfold vadd, startPoint, endPoint in Hring.
  on_samples. cbn [fst snd] in Hring.
  injection Hring as Hx1 Hy1 Hx0 Hy0.
  assert (Hox : ox = 12) by lra. assert (Hoy : oy = 0) by lra.
  subst ox oy. unfold norm in Hnorm. cbn [fst snd] in Hnorm.
  rewrite (sqrt_of_squares _ _ 12) in Hnorm by lra. lra.
Qed.

Lemma C6_witness :
  link_ident linkEast ≠ link_ident linkWest
  ∧ getAcuteAngle linkEast linkEast = Ok 0
  ∧ (reversed linkEast linkWest → startPoint linkEast ≠ endPoint linkEast →
     getAcuteAngle linkEast linkWest = Ok 180)
  ∧ (¬ coordinateShortcut linkEast linkWest →
     ¬ reverseShortcut linkEast linkWest →
     euclideanLength linkEast = 0 ∨ euclideanLength linkWest = 0 →
     getAcuteAngle linkEast linkWest
     = Raise (DtaError (ZeroLengthLink
                          (if bool_decide (euclideanLength linkEast = 0)
                           then _id linkEast else _id linkWest)))).
Proof.
  split; [discriminate|].
  apply (C6_getAcuteAngle_special_cases linkEast linkWest).
  discriminate.
Defined.

Example linkEast_linkWest_angle : getAcuteAngle linkEast linkWest = Ok 180.
Proof.
  apply getAcuteAngle_reversed.
  - discriminate.
  - split; reflexivity.
  - unfold startPoint, endPoint. on_samples. intros [= Hx]. lra.
Qed.

Example linkThere_linkEast_angle :
  getAcuteAngle linkThere linkEast = Raise (DtaError (ZeroLengthLink 16)).
Proof.
  rewrite getAcuteAngle_zero_length.
  - unfold euclideanLength. on_samples.
    rewrite (sqrt_of_squares _ _ 0) by lra.
    rewrite bool_decide_eq_true_2 by reflexivity. reflexivity.
  - discriminate.
  - unfold coordinateShortcut. on_samples. lra.
  - unfold reverseShortcut. on_samples. cbn. intros [Hbad _]. discriminate.
  - left. unfold euclideanLength. on_samples.
    apply sqrt_of_squares; lra.
Qed.

(** Two nodes stacked on the same point and the two links between them:
    the links are each other's reverse, and their angle is 0, not 180. *)
Lemma C6_counterexample :
  reversed linkThere linkBack
  ∧ getAcuteAngle linkThere linkBack = Ok 0
  ∧ getAcuteAngle linkThere linkBack ≠ Ok 180.
Proof.
  assert (Hval : getAcuteAngle linkThere linkBack = Ok 0).
  { unfold getAcuteAngle.
    change (Link_eq linkThere linkBack) with false. on_samples.
    repeat decide_true. reflexivity. }
  split; [split; reflexivity|]. split; [exact Hval|].
  rewrite Hval. intros [= Hbad]. lra.
Qed.

(** C7: [getAcuteAngle] is not symmetric.  The links (0,0)->(1,0) and
    (0,5)->(1,0) end on the same node: asked from the first, the coordinate
    shortcut fires and the angle is 0; asked from the second, it does not
    and the angle is measured, and is not 0. *)
Theorem C7_getAcuteAngle_not_symmetric :
  getAcuteAngle linkFlat linkSlant = Ok 0
  ∧ ∃ a, getAcuteAngle linkSlant linkFlat = Ok a ∧ a ≠ 0.
Proof.
  split.
  - unfold getAcuteAngle.
    change (Link_eq linkFlat linkSlant) with false. on_samples.
    repeat decide_true. reflexivity.
  - unfold getAcuteAngle.
    change (Link_eq linkSlant linkFlat) with false.
    change (Node_eq (getStartNode linkSlant) (getEndNode linkFlat)) with false.
    on_samples.
    decide_true. decide_false. cbn [andb].
    assert (H1 : 5 < sqrt ((1 - 0) ^ 2 + (0 - 5) ^ 2)).
    { rewrite <- (sqrt_square 5) at 1 by lra. apply sqrt_lt_1_alt. lra. }
    rewrite (sqrt_of_squares (1 - 0) (0 - 0) 1) by lra.
    set (len := sqrt ((1 - 0) ^ 2 + (0 - 5) ^ 2)) in *.
    replace (((1 - 0) * (1 - 0) + (0 - 5) * (0 - 0)) / (len * 1))
      with (/ len) by (field; lra).
    assert (Hpos : 0 < / len) by (apply Rinv_0_lt_compat; lra).
    assert (Hlt : / len < 1).
    { rewrite <- Rinv_1. apply Rinv_lt_contravar; lra. }
    do 2 decide_false.
    rewrite (Rabs_pos_eq (/ len)) by lra. decide_false.
    eexists. split; [reflexivity|].
    pose proof PI_RGT_0 as Hpi.
    assert (Hacos : acos (/ len) ≠ 0).
    { intros Hzero. pose proof (cos_acos (/ len) ltac:(lra)) as Hcos.
      rewrite Hzero, cos_0 in Hcos. lra. }
    apply Rabs_no_R0 in Hacos.
    intros Hbad. apply Hacos.
    assert (Hinv : / PI ≠ 0) by (apply Rinv_neq_0_compat; lra).
    unfold Rdiv in Hbad.
    apply Rmult_integral in Hbad as [Hbad|Hbad]; [|lra].
    apply Rmult_integral in Hbad as [Hbad|Hbad]; [exact Hbad | contradiction].
Qed.

(** C10: [getOrientation] on a link holding exactly one shape point raises
    [IndexError]: the last-but-one shape point does not exist. *)
Theorem C10_getOrientation_one_shape_point :
  (addShapePoint 5 1 linkEast).2 = Ok tt
  ∧ getNumShapePoints (addShapePoint 5 1 linkEast).1 = 1%Z
  ∧ getOrientation (addShapePoint 5 1 linkEast).1 = Raise IndexError.
Proof. repeat split. Qed.

(** C4: the constructor rejects a lane count of 0, but [setNumLanes(0)] on a
    constructed link is accepted and leaves the link with 0 lanes. *)
Theorem C4_setNumLanes_unchecked :
  __init__ (Mv := TableMovement) (Vcg := unit)
    11 11 nodeO nodeE None 1 (Some (-1)) 30 1 1 0 false None None
  = Raise (DtaError (NumLanesNotPositive 0))
  ∧ __init__ 11 11 nodeO nodeE None 1 (Some (-1)) 30 1 1 2 false None None
    = Ok linkEast
  ∧ (setNumLanes 0 linkEast).2 = Ok tt
  ∧ getNumLanes (setNumLanes 0 linkEast).1 = 0%Z.
Proof. repeat split. Qed.

(** C5: a link constructed with [length = None] answers [getLength()] with
    [None], not with the Euclidean distance between its nodes. *)
Theorem C5_getLength_of_None :
  __init__ 19 19 nodeO nodeE None 1 None 30 1 1 2 false None None = Ok linkAuto
  ∧ getLength linkAuto = None
  ∧ getLength linkAuto ≠ Some (euclideanLength linkAuto).
Proof. repeat split. discriminate. Qed.

End Samples.

(** ** Further properties of the simulation series *)

Section SeriesWindows.

Context {Mv Vcg : Type} `{Movement Mv}.
Variable clock : SimClock.
Implicit Types (l : RoadLink Mv Vcg) (s e : Z).

Lemma validateInputTimes_rejects l s e :
  ¬ inHorizon clock s e →
  ∃ why, _validateInputTimes clock s e l = (l, Raise (DtaError why)).
Proof.
  intros Hbad. unfold _validateInputTimes.
  rewrite Z.geb_leb, Z.gtb_ltb.
  destruct (Z.leb_spec e s); [eexists; reflexivity|].
  destruct (Z.ltb_spec s (simStartTimeInMin clock)); [eexists; reflexivity|].
  destruct (Z.ltb_spec (simEndTimeInMin clock) e); [eexists; reflexivity|].
  exfalso. apply Hbad. unfold inHorizon. lia.
Qed.

(** X1: [getSimVolume] answers only windows of the horizon that are a whole
    number of (non-zero) time steps.  Any other window is refused with the
    link left exactly as it was, by a [DtaError], or by [ZeroDivisionError]
    when the window is in the horizon and the time step is 0. *)
Theorem getSimVolume_refuses_bad_window l s e :
  ¬ (inHorizon clock s e ∧ simTimeStepInMin clock ≠ 0
     ∧ (e - s) mod simTimeStepInMin clock = 0) →
  ∃ err, getSimVolume clock s e l = (l, Raise err)
         ∧ (isDtaError err = true
            ∨ (err = ZeroDivisionError ∧ inHorizon clock s e
               ∧ simTimeStepInMin clock = 0)).
Proof.
  intros Hbad. unfold getSimVolume. unfold bind at 1.
  destruct (decide (inHorizon clock s e)) as [Hwin|Hwin].
  - rewrite validateInputTimes_ok by exact Hwin.
    unfold bind at 1, _checkOutputTimeStep, bind at 1, lift, py_mod.
    destruct (Z.eqb_spec (simTimeStepInMin clock) 0) as [Hz|Hnz].
    + exists ZeroDivisionError. split; [reflexivity|]. right. auto.
    + destruct (Z.eqb_spec ((e - s) mod simTimeStepInMin clock) 0) as [Hm|Hm].
      * exfalso. apply Hbad. auto.
      * simpl. eexists. split; [reflexivity|]. left. reflexivity.
  - destruct (validateInputTimes_rejects l s e Hwin) as (why & ->).
    eexists. split; [reflexivity|]. left. reflexivity.
Qed.

(** X2: [setSimVolume] accepts only a window of the horizon that is exactly
    one time step long: any other window is refused with a [DtaError],
    whatever the movements and the volume, the link left as it was. *)
Theorem setSimVolume_refuses_bad_window l s e v :
  ¬ (inHorizon clock s e ∧ e - s = simTimeStepInMin clock) →
  ∃ why, setSimVolume clock s e v l = (l, Raise (DtaError why)).
Proof.
  intros Hbad. unfold setSimVolume. unfold bind at 1.
  destruct (decide (inHorizon clock s e)) as [Hwin|Hwin].
  - rewrite validateInputTimes_ok by exact Hwin.
    unfold bind at 1, _checkInputTimeStep.
    destruct (Z.eqb_spec (e - s) (simTimeStepInMin clock)) as [Hs|Hs].
    + exfalso. apply Hbad. auto.
    + simpl. eexists. reflexivity.
  - destruct (validateInputTimes_rejects l s e Hwin) as (why & ->).
    eexists. reflexivity.
Qed.

(** X3: on a link with no outgoing movement, [setSimVolume] on a native bin
    of the horizon succeeds and stores the volume under the bin, replacing
    what the series held there; the other keys of the series, the
    travel-time map and the (empty) movement list are as before. *)
Theorem setSimVolume_stores_bin l s e v :
  _outgoingMovements l = [] →
  inHorizon clock s e → e - s = simTimeStepInMin clock →
  ∃ l', setSimVolume clock s e v l = (l', Ok tt)
        ∧ _simVolume l' !! (s, e) = Some v
        ∧ (∀ k, k ≠ (s, e) → _simVolume l' !! k = _simVolume l !! k)
        ∧ _simMeanTT l' = _simMeanTT l
        ∧ _outgoingMovements l' = [].
Proof.
  intros Hout Hwin Hstep. eexists.
  split; [apply setSimVolume_own; assumption|].
  cbn [_simVolume _simMeanTT _outgoingMovements set_simVolume assign].
  split; [apply lookup_insert_eq|].
  split; [|split; [reflexivity | exact Hout]].
  intros k Hk. apply lookup_insert_ne. congruence.
Qed.

(** X4: on a link with no outgoing movement [getSimVolume] never returns a
    volume.  Whatever the window, the call raises and leaves the link, its
    defaultdict of volumes included, exactly as it was; for a window of the
    horizon that is a whole number of (non-zero) time steps, what is raised
    is the [NameError] of the call of [pairwise]. *)
Theorem getSimVolume_without_movements_raises l s e :
  _outgoingMovements l = [] →
  ∃ err, getSimVolume clock s e l = (l, Raise err)
         ∧ (inHorizon clock s e → simTimeStepInMin clock ≠ 0 →
            (e - s) mod simTimeStepInMin clock = 0 → err = NameError).
Proof.
  intros Hout.
  destruct (getSimVolume_own_raises clock l s e Hout) as (err & Herr).
  exists err. split; [exact Herr|].
  intros Hwin Hnz Hmod.
  rewrite getSimVolume_own in Herr by assumption. congruence.
Qed.

Lemma writeMovements_single (mov : Mv) s e v :
  writeMovements [mov] s e v
  = ([(mov_setSimVolume mov s e v).1], (mov_setSimVolume mov s e v).2).
Proof.
  simpl. destruct (mov_setSimVolume mov s e v) as [mov' [[]|err]]; reflexivity.
Qed.

(** X6: on a link with exactly one outgoing movement, [setSimVolume] hands
    the write to the movement, provided the movement does not report a
    positive volume for the window: the movement is replaced by what its own
    [setSimVolume] leaves, the outcome is the movement's, and the link's own
    series is not touched.  When the movement already reports a positive
    volume, the write is refused with a [DtaError] and nothing changes. *)
Theorem setSimVolume_single_movement l (mov : Mv) s e v (held : Z) :
  _outgoingMovements l = [mov] →
  inHorizon clock s e → e - s = simTimeStepInMin clock →
  mov_getSimVolume mov s e = Ok held →
  (held ≤ 0 →
   setSimVolume clock s e v l
   = (set_outgoingMovements [(mov_setSimVolume mov s e v).1] l,
      (mov_setSimVolume mov s e v).2))
  ∧ (0 < held →
     setSimVolume clock s e v l = (l, Raise (DtaError MovementWithVolume))).
Proof.
  intros Hout Hwin Hstep Hread.
  split; intros Hheld; unfold setSimVolume;
    (unfold bind at 1; rewrite validateInputTimes_ok by exact Hwin);
    (unfold bind at 1; rewrite checkInputTimeStep_ok by exact Hstep);
    unfold bind at 1, _hasMovementVolumes, bind at 1, attr, lift;
    rewrite Hout; simpl; rewrite Hread; rewrite Z.gtb_ltb.
  - destruct (Z.ltb_spec 0 held); [lia|].
    unfold bind, getNumOutgoingMovements, attr. rewrite Hout.
    change (Z.of_nat (length [mov]) >? 1) with false.
    change (Z.of_nat (length [mov]) =? 1) with true.
    cbv beta iota. rewrite Hout, writeMovements_single. reflexivity.
  - destruct (Z.ltb_spec 0 held); [|lia]. reflexivity.
Qed.

End SeriesWindows.

(** ** Further properties of the constructor and the accessors *)

Section Lanes.

Context {Mv Vcg : Type} `{Movement Mv}.
Implicit Types (l : RoadLink Mv Vcg).

(** The constructor succeeds exactly when [numLanes] is positive.  The
    link it returns has that lane count, the given length as passed, no
    lane permission, no movement, no shift, no shape point, empty series,
    and the centerline of its two nodes already cached; with a lane count
    of 0 or less it raises a [DtaError] that carries the count. *)
Theorem constructor_contract ident id startNode endNode rev ft len ffs elf rtf
    numLanes ra level label :
  (0 < numLanes →
   ∃ l : RoadLink Mv Vcg,
     __init__ ident id startNode endNode rev ft len ffs elf rtf numLanes ra
       level label = Ok l
     ∧ getNumLanes l = numLanes ∧ _length l = len
     ∧ getStartNode l = startNode ∧ getEndNode l = endNode
     ∧ _lanePermissions l = ∅ ∧ _outgoingMovements l = []
     ∧ _incomingMovements l = [] ∧ getShifts l = (None, None)
     ∧ _shapePoints l = [] ∧ _simVolume l = ∅ ∧ _simMeanTT l = ∅
     ∧ _centerline l = centerLineOf l ∧ lanesWithinBounds l)
  ∧ (numLanes ≤ 0 →
     __init__ (Mv := Mv) (Vcg := Vcg) ident id startNode endNode rev ft len
       ffs elf rtf numLanes ra level label
     = Raise (DtaError (NumLanesNotPositive numLanes))).
Proof.
  split; intros Hn; unfold __init__.
  - destruct (Z.leb_spec numLanes 0); [lia|].
    eexists. split; [reflexivity|].
    do 12 (split; [reflexivity|]).
    intros laneId [g Hg]. cbn in Hg. rewrite lookup_empty in Hg. discriminate.
  - destruct (Z.leb_spec numLanes 0); [reflexivity | lia].
Qed.

(** X7: [setNumLanes] is the only method that changes the lane count: the
    series methods, [addLanePermission], [addShifts], [addShapePoint] and
    [getCenterLine] leave it as it is, whether they succeed or raise. *)
Theorem numLanes_only_changed_by_setNumLanes (clock : SimClock) l s e v
    laneId (g : Vcg) (x y : R) :
  getNumLanes (getSimVolume clock s e l).1 = getNumLanes l
  ∧ getNumLanes (setSimVolume clock s e v l).1 = getNumLanes l
  ∧ getNumLanes (addLanePermission laneId g l).1 = getNumLanes l
  ∧ getNumLanes (addShifts x y l).1 = getNumLanes l
  ∧ getNumLanes (addShapePoint x y l).1 = getNumLanes l
  ∧ getNumLanes (getCenterLine l).1 = getNumLanes l.
Proof.
  unfold getNumLanes. repeat split.
  - apply getSimVolume_numLanes.
  - apply setSimVolume_numLanes.
  - apply addLanePermission_numLanes.
Qed.

(** X8: [addLanePermission] stores the group under a lane id between 0 and
    [numLanes - 1], replacing what the lane held and touching no other lane;
    any other lane id is refused with a [DtaError] and the link is left as
    it was. *)
Theorem addLanePermission_contract l laneId (g : Vcg) :
  (0 ≤ laneId < getNumLanes l →
   ∃ l', addLanePermission laneId g l = (l', Ok tt)
         ∧ _lanePermissions l' !! laneId = Some g
         ∧ (∀ other, other ≠ laneId →
                     _lanePermissions l' !! other = _lanePermissions l !! other))
  ∧ (¬ (0 ≤ laneId < getNumLanes l) →
     addLanePermission laneId g l
     = (l, Raise (DtaError (InvalidLaneId laneId (getNumLanes l))))).
Proof.
  unfold getNumLanes, addLanePermission, bind, attr, raise, store.
  rewrite Z.geb_leb.
  split; intros Hlane.
  - destruct (Z.ltb_spec laneId 0); [lia|].
    destruct (Z.leb_spec (_numLanes l) laneId); [lia|]. simpl.
    eexists. split; [reflexivity|].
    cbn [_lanePermissions set_lanePermissions assign].
    split; [apply lookup_insert_eq|].
    intros other Hne. apply lookup_insert_ne. congruence.
  - destruct (Z.ltb_spec laneId 0); [reflexivity|].
    destruct (Z.leb_spec (_numLanes l) laneId); [reflexivity | lia].
Qed.

(** X9: [addLanePermission] keeps the lane permissions within the lanes of
    the link: if every lane holding a permission is below [numLanes] before
    the call, the same holds after it, whether it succeeded or raised. *)
Theorem addLanePermission_keeps_lanes_within_bounds l laneId (g : Vcg) :
  lanesWithinBounds l →
  lanesWithinBounds (addLanePermission laneId g l).1.
Proof.
  intros Hinv. unfold addLanePermission, bind, attr, raise, store.
  rewrite Z.geb_leb.
  destruct (Z.ltb_spec laneId 0); [exact Hinv|].
  destruct (Z.leb_spec (_numLanes l) laneId); [exact Hinv|]. simpl.
  intros k Hk. unfold getNumLanes in *.
  cbn [_lanePermissions _numLanes set_lanePermissions assign] in *.
  destruct (decide (k = laneId)) as [->|Hne]; [lia|].
  rewrite lookup_insert_ne in Hk by congruence. apply Hinv, Hk.
Qed.

End Lanes.

(** ** Further properties of the geometry *)

Section Footprint.

Context {Mv Vcg : Type}.
Implicit Types (l self other : RoadLink Mv Vcg).
Local Open Scope R_scope.

Lemma euclideanLength_square l :
  euclideanLength l * euclideanLength l
  = (getX (_endNode l) - getX (_startNode l)) ^ 2
    + (getY (_endNode l) - getY (_startNode l)) ^ 2.
Proof.
  unfold euclideanLength. apply sqrt_sqrt.
  pose proof (pow2_ge_0 (getX (_endNode l) - getX (_startNode l))).
  pose proof (pow2_ge_0 (getY (_endNode l) - getY (_startNode l))). lra.
Qed.

Lemma euclideanLength_nonneg l : 0 <= euclideanLength l.
Proof. unfold euclideanLength. apply sqrt_pos. Qed.

Lemma euclideanLength_zero l :
  euclideanLength l = 0 →
  getX (_endNode l) = getX (_startNode l)
  ∧ getY (_endNode l) = getY (_startNode l).
Proof.
  intros Hz. pose proof (euclideanLength_square l) as Hsq.
  rewrite Hz in Hsq.
  pose proof (pow2_ge_0 (getX (_endNode l) - getX (_startNode l))).
  pose proof (pow2_ge_0 (getY (_endNode l) - getY (_startNode l))).
  split; nra.
Qed.

Lemma norm_of_scaled_normal (dx dy len k : R) :
  0 < len → len * len = dx ^ 2 + dy ^ 2 → 0 <= k →
  norm (dy * (k / len), - dx * (k / len)) = k.
Proof.
  intros Hlen Hsq Hk. unfold norm. cbn [fst snd].
  apply sqrt_of_squares; [exact Hk|].
  replace ((dy * (k / len)) ^ 2 + (- dx * (k / len)) ^ 2)
    with ((dx ^ 2 + dy ^ 2) * (k / len) ^ 2) by ring.
  rewrite <- Hsq. field. lra.
Qed.

(** X10: for a link of non-zero Euclidean length with a positive lane
    count, [getCenterLine] returns the node-to-node segment moved, at a
    right angle and to the right of the direction of travel, by half the
    roadway width, [numLanes * 12 / 2] feet; it stores the pair it returns
    as the cached centerline, from which [getMidPoint] then reads the
    middle of the moved segment. *)
Theorem getCenterLine_right_offset l :
  euclideanLength l ≠ 0 → (0 < getNumLanes l)%Z →
  ∃ off,
    getCenterLine l
    = (set_centerline (vadd (startPoint l) off, vadd (endPoint l) off) l,
       Ok (vadd (startPoint l) off, vadd (endPoint l) off))
    ∧ dot off (vsub (endPoint l) (startPoint l)) = 0
    ∧ cross (vsub (endPoint l) (startPoint l)) off < 0
    ∧ norm off = IZR (getNumLanes l) * 6
    ∧ getMidPoint (getCenterLine l).1
      = vadd (((startPoint l).1 + (endPoint l).1) / 2,
              ((startPoint l).2 + (endPoint l).2) / 2) off.
Proof.
  intros Hnz Hlanes.
  pose proof (euclideanLength_nonneg l) as Hge.
  pose proof (euclideanLength_square l) as Hsq.
  assert (Hlen : 0 < euclideanLength l) by lra.
  assert (Hn : 0 < IZR (getNumLanes l)) by (apply IZR_lt in Hlanes; exact Hlanes).
  set (dx := getX (_endNode l) - getX (_startNode l)) in *.
  set (dy := getY (_endNode l) - getY (_startNode l)) in *.
  set (k := IZR (getNumLanes l) * 6).
  exists (dy * (k / euclideanLength l), - dx * (k / euclideanLength l)).
  assert (Hcl : centerLineOf l
                = (vadd (startPoint l)
                     (dy * (k / euclideanLength l), - dx * (k / euclideanLength l)),
                   vadd (endPoint l)
                     (dy * (k / euclideanLength l), - dx * (k / euclideanLength l)))).
  { unfold centerLineOf, vadd, startPoint, endPoint, getStartNode, getEndNode,
      DEFAULT_LANE_WIDTH_FEET.
    cbn [fst snd]. rewrite bool_decide_eq_false_2 by exact Hnz.
    fold dx dy. unfold k.
    replace (IZR (getNumLanes l) * 12 / 2 / euclideanLength l)
      with (IZR (getNumLanes l) * 6 / euclideanLength l) by (field; exact Hnz).
    reflexivity. }
  split; [|split; [|split; [|split]]].
  - unfold getCenterLine, bind, attr, store. rewrite Hcl. reflexivity.
  - unfold dot, vsub, startPoint, endPoint, getStartNode, getEndNode.
    cbn [fst snd]. fold dx dy. ring.
  - unfold cross, vsub, startPoint, endPoint, getStartNode, getEndNode.
    cbn [fst snd]. fold dx dy.
    assert (Hk : 0 < k / euclideanLength l)
      by (apply Rdiv_lt_0_compat; unfold k; lra).
    replace (dx * (- dx * (k / euclideanLength l))
             - dy * (dy * (k / euclideanLength l)))
      with (- ((dx ^ 2 + dy ^ 2) * (k / euclideanLength l))) by ring.
    rewrite <- Hsq.
    assert (0 < euclideanLength l * euclideanLength l * (k / euclideanLength l))
      by (apply Rmult_lt_0_compat; [apply Rmult_lt_0_compat|]; assumption).
    lra.
  - apply norm_of_scaled_normal; [exact Hlen | exact Hsq | unfold k; lra].
  - unfold getMidPoint, getCenterLine, bind, attr, store.
    cbn [fst snd _centerline set_centerline assign]. rewrite Hcl.
    unfold vadd. cbn [fst snd]. f_equal; field; exact Hnz.
Qed.

(** X11: for a link of non-zero Euclidean length with a positive lane
    count and a positive scale, [getOutline(scale)] is the ring (start
    node, end node, end node moved, start node moved), the move being at a
    right angle to the segment and [numLanes * 12 * scale] feet long, and
    the ring runs clockwise. *)
Theorem getOutline_ring l (scale : R) :
  euclideanLength l ≠ 0 → (0 < getNumLanes l)%Z → 0 < scale →
  ∃ off,
    getOutline scale l
    = (startPoint l, endPoint l, vadd (endPoint l) off, vadd (startPoint l) off)
    ∧ dot off (vsub (endPoint l) (startPoint l)) = 0
    ∧ norm off = IZR (getNumLanes l) * 12 * scale
    ∧ clockwise (getOutline scale l).
Proof.
  intros Hnz Hlanes Hscale.
  pose proof (euclideanLength_nonneg l) as Hge.
  pose proof (euclideanLength_square l) as Hsq.
  assert (Hlen : 0 < euclideanLength l) by lra.
  assert (Hn : 0 < IZR (getNumLanes l)) by (apply IZR_lt in Hlanes; exact Hlanes).
  set (dx := getX (_endNode l) - getX (_startNode l)) in *.
  set (dy := getY (_endNode l) - getY (_startNode l)) in *.
  set (k := IZR (getNumLanes l) * 12 * scale).
  assert (Hkpos : 0 < k) by (unfold k; nra).
  exists (dy * (k / euclideanLength l), - dx * (k / euclideanLength l)).
  assert (Hring : getOutline scale l
                  = (startPoint l, endPoint l,
                     vadd (endPoint l)
                       (dy * (k / euclideanLength l), - dx * (k / euclideanLength l)),
                     vadd (startPoint l)
                       (dy * (k / euclideanLength l), - dx * (k / euclideanLength l)))).
  { unfold getOutline, vadd, startPoint, endPoint, getStartNode, getEndNode,
      DEFAULT_LANE_WIDTH_FEET.
    cbn [fst snd]. rewrite bool_decide_eq_false_2 by exact Hnz.
    fold dx dy. unfold k.
    replace (IZR (getNumLanes l) * 12 / euclideanLength l * scale)
      with (IZR (getNumLanes l) * 12 * scale / euclideanLength l)
      by (field; exact Hnz).
    reflexivity. }
  split; [exact Hring|]. split; [|split].
  - unfold dot, vsub, startPoint, endPoint, getStartNode, getEndNode.
    cbn [fst snd]. fold dx dy. ring.
  - apply norm_of_scaled_normal; [exact Hlen | exact Hsq | lra].
  - rewrite Hring. unfold clockwise, signedArea2, cross, vadd, startPoint,
      endPoint, getStartNode, getEndNode. cbn [fst snd].
    assert (Hk : 0 < k / euclideanLength l) by (apply Rdiv_lt_0_compat; lra).
    set (q := k / euclideanLength l) in *.
    set (ax := getX (_startNode l)). set (ay := getY (_startNode l)).
    set (bx := getX (_endNode l)) in *. set (by_ := getY (_endNode l)) in *.
    replace (ax * by_ - ay * bx + (bx * (by_ + - dx * q) - by_ * (bx + dy * q))
             + ((bx + dy * q) * (ay + - dx * q) - (by_ + - dx * q) * (ax + dy * q))
             + ((ax + dy * q) * ay - (ay + - dx * q) * ax))
      with (- (2 * ((dx ^ 2 + dy ^ 2) * q)))
      by (unfold dx, dy, ax, ay, bx, by_; ring).
    rewrite <- Hsq.
    assert (0 < euclideanLength l * euclideanLength l * q)
      by (apply Rmult_lt_0_compat; [apply Rmult_lt_0_compat|]; assumption).
    lra.
Qed.

(** X12: a link whose two nodes have the same coordinates has no direction
    to move along: [getCenterLine] returns the node point twice and
    [getOutline] returns it four times, whatever the lane count and scale. *)
Theorem zero_length_footprint l (scale : R) :
  euclideanLength l = 0 →
  (getCenterLine l).2 = Ok (startPoint l, startPoint l)
  ∧ getOutline scale l
    = (startPoint l, startPoint l, startPoint l, startPoint l)
  ∧ endPoint l = startPoint l.
Proof.
  intros Hz. destruct (euclideanLength_zero l Hz) as [Hx Hy].
  unfold getCenterLine, bind, attr, store, centerLineOf, getOutline, startPoint,
    endPoint, getStartNode, getEndNode.
  cbn [fst snd _centerline set_centerline assign].
  rewrite Hz, Hx, Hy. rewrite !bool_decide_eq_true_2 by reflexivity.
  repeat split; repeat f_equal; ring.
Qed.

End Footprint.

Section Bearings.

Context {Mv Vcg : Type}.
Implicit Types (l self other : RoadLink Mv Vcg).
Local Open Scope R_scope.

(** X13: the first shape point added to a link without shape points makes
    [getOrientation] raise [IndexError]; a shape point added to a link that
    already has some makes it return the bearing from the previous last
    shape point to the new one, in [0, 360): the nodes play no part. *)
Theorem addShapePoint_then_getOrientation l (x y : R) :
  (_shapePoints l = [] →
   getOrientation (addShapePoint x y l).1 = Raise IndexError)
  ∧ (∀ ps p, _shapePoints l = ps ++ [p] →
       getOrientation (addShapePoint x y l).1 = Ok (bearing p (x, y))
       ∧ 0 <= bearing p (x, y) < 360).
Proof.
  split.
  - intros Hsp. apply (getOrientation_one_shape_point _ (x, y)).
    cbn [addShapePoint store fst _shapePoints set_shapePoints assign].
    rewrite Hsp. reflexivity.
  - intros ps p Hsp. split; [|apply bearing_range].
    apply (getOrientation_last_two _ ps).
    cbn [addShapePoint store fst _shapePoints set_shapePoints assign].
    rewrite Hsp, <- app_assoc. reflexivity.
Qed.

(** X14: a link without shape points that runs along an axis has the
    bearing and the direction of that axis: 0 and NB due north, 90 and EB
    due east, 180 and SB due south, 270 and WB due west. *)
Theorem axis_aligned_orientation l :
  _shapePoints l = [] →
  (getX (getEndNode l) = getX (getStartNode l) →
   getY (getEndNode l) > getY (getStartNode l) →
   getOrientation l = Ok 0 ∧ getDirection l = Ok DIR_NB)
  ∧ (getX (getEndNode l) > getX (getStartNode l) →
     getY (getEndNode l) = getY (getStartNode l) →
     getOrientation l = Ok 90 ∧ getDirection l = Ok DIR_EB)
  ∧ (getX (getEndNode l) = getX (getStartNode l) →
     getY (getEndNode l) < getY (getStartNode l) →
     getOrientation l = Ok 180 ∧ getDirection l = Ok DIR_SB)
  ∧ (getX (getEndNode l) < getX (getStartNode l) →
     getY (getEndNode l) = getY (getStartNode l) →
     getOrientation l = Ok 270 ∧ getDirection l = Ok DIR_WB).
Proof.
  intros Hsp. pose proof PI_RGT_0 as Hpi.
  assert (Hdir : ∀ o d, getOrientation l = Ok o → directionOf o = d →
                        getOrientation l = Ok o ∧ getDirection l = Ok d).
  { intros o d Ho Hd. split; [exact Ho|].
    unfold getDirection. rewrite Ho, Hd. reflexivity. }
  assert (Hzero : ∀ a b : R, atan (Rabs (a - a) / Rabs b) = 0).
  { intros a b. rewrite Rminus_diag, Rabs_R0. unfold Rdiv.
    rewrite Rmult_0_l. apply atan_0. }
  split; [|split; [|split]]; intros Hx Hy; apply Hdir;
    try (unfold directionOf; repeat case_bool_decide; simpl; try lra;
         reflexivity);
    rewrite (getOrientation_no_shape l Hsp);
    unfold startPoint, endPoint, bearing; rewrite ?Hx, ?Hy;
    repeat case_bool_decide; simpl; try lra;
    rewrite Hzero; f_equal; field; lra.
Qed.

Lemma degrees_lt (a c : R) : a < c * PI / 180 → a * 180 / PI < c.
Proof.
  intros Ha. pose proof PI_RGT_0 as Hpi.
  apply (Rmult_lt_reg_r (PI / 180)); [lra|].
  replace (a * 180 / PI * (PI / 180)) with a by (field; lra). lra.
Qed.

Lemma degrees_le (a c : R) : c * PI / 180 <= a → c <= a * 180 / PI.
Proof.
  intros Ha. pose proof PI_RGT_0 as Hpi.
  apply (Rmult_le_reg_r (PI / 180)); [lra|].
  replace (a * 180 / PI * (PI / 180)) with a by (field; lra). lra.
Qed.

Lemma atan_below_diagonal (a b : R) :
  0 <= a < b → 0 <= atan (a / b) < PI / 4.
Proof.
  intros [Ha Hab]. assert (Hb : 0 < b) by lra.
  assert (Hq : 0 <= a / b < 1).
  { split.
    - apply Rmult_le_pos; [exact Ha | left; apply Rinv_0_lt_compat, Hb].
    - apply (Rmult_lt_reg_r b); [exact Hb|].
      replace (a / b * b) with a by (field; lra). lra. }
  split; [apply atan_nonneg; lra|].
  rewrite <- atan_1. apply atan_increasing. lra.
Qed.

Lemma atan_above_diagonal (a b : R) :
  0 < b < a → PI / 4 < atan (a / b) < PI / 2.
Proof.
  intros [Hb Hab].
  assert (Hq : 1 < a / b).
  { apply (Rmult_lt_reg_r b); [exact Hb|].
    replace (a / b * b) with a by (field; lra). lra. }
  split; [|apply atan_bound].
  rewrite <- atan_1. apply atan_increasing. exact Hq.
Qed.

Lemma Rabs_cases (v : R) : (0 <= v ∧ Rabs v = v) ∨ (v < 0 ∧ Rabs v = - v).
Proof.
  destruct (Rle_lt_dec 0 v) as [Hv|Hv].
  - left. split; [exact Hv | apply Rabs_pos_eq, Hv].
  - right. split; [exact Hv | apply Rabs_left, Hv].
Qed.

Ltac bearing_cases x1 y1 x2 y2 :=
  unfold bearing;
  destruct (Rabs_cases (x2 - x1)) as [[? ->]|[? ->]];
  destruct (Rabs_cases (y2 - y1)) as [[? ->]|[? ->]];
  repeat case_bool_decide; simpl; try lra.

Ltac atan_fact :=
  match goal with
  | |- context [atan (?a / ?b)] =>
      first [ pose proof (atan_below_diagonal a b ltac:(lra))
            | pose proof (atan_above_diagonal a b ltac:(lra)) ]
  end.

Lemma bearing_dominant_north (x1 y1 x2 y2 : R) :
  Rabs (x2 - x1) < y2 - y1 →
  bearing (x1, y1) (x2, y2) < 45 ∨ 315 <= bearing (x1, y1) (x2, y2).
Proof.
  intros Hdom. pose proof PI_RGT_0 as Hpi. revert Hdom.
  bearing_cases x1 y1 x2 y2; intros Hdom; try lra; atan_fact;
    first [ left; apply degrees_lt; lra | right; apply degrees_le; lra ].
Qed.

Lemma bearing_dominant_east (x1 y1 x2 y2 : R) :
  Rabs (y2 - y1) < x2 - x1 →
  45 <= bearing (x1, y1) (x2, y2) < 135.
Proof.
  intros Hdom. pose proof PI_RGT_0 as Hpi. revert Hdom.
  bearing_cases x1 y1 x2 y2; intros Hdom; try lra; atan_fact;
    (split; [apply degrees_le | apply degrees_lt]; lra).
Qed.

Lemma bearing_dominant_south (x1 y1 x2 y2 : R) :
  Rabs (x2 - x1) < - (y2 - y1) →
  135 <= bearing (x1, y1) (x2, y2) < 225.
Proof.
  intros Hdom. pose proof PI_RGT_0 as Hpi. revert Hdom.
  bearing_cases x1 y1 x2 y2; intros Hdom; try lra; atan_fact;
    (split; [apply degrees_le | apply degrees_lt]; lra).
Qed.

Lemma bearing_dominant_west (x1 y1 x2 y2 : R) :
  Rabs (y2 - y1) < - (x2 - x1) →
  225 <= bearing (x1, y1) (x2, y2) < 315.
Proof.
  intros Hdom. pose proof PI_RGT_0 as Hpi. revert Hdom.
  bearing_cases x1 y1 x2 y2; intros Hdom; try lra; atan_fact;
    (split; [apply degrees_le | apply degrees_lt]; lra).
Qed.

(** X15: the direction of a link is that of the dominant axis of the
    segment [getOrientation] measures (the last two shape points, or the two
    nodes): NB when it climbs more than it moves sideways, EB when it moves
    east more than it moves north or south, SB and WB likewise. *)
Theorem getDirection_dominant_axis l (x1 y1 x2 y2 : R) :
  orientationPoints l = Ok ((x1, y1), (x2, y2)) →
  (Rabs (x2 - x1) < y2 - y1 → getDirection l = Ok DIR_NB)
  ∧ (Rabs (y2 - y1) < x2 - x1 → getDirection l = Ok DIR_EB)
  ∧ (Rabs (x2 - x1) < - (y2 - y1) → getDirection l = Ok DIR_SB)
  ∧ (Rabs (y2 - y1) < - (x2 - x1) → getDirection l = Ok DIR_WB).
Proof.
  intros Hpts. unfold getDirection, getOrientation. rewrite Hpts.
  split; [|split; [|split]]; intros Hdom; f_equal; unfold directionOf.
  - pose proof (bearing_dominant_north x1 y1 x2 y2 Hdom).
    repeat case_bool_decide; simpl; try reflexivity; lra.
  - pose proof (bearing_dominant_east x1 y1 x2 y2 Hdom).
    repeat case_bool_decide; simpl; try reflexivity; lra.
  - pose proof (bearing_dominant_south x1 y1 x2 y2 Hdom).
    repeat case_bool_decide; simpl; try reflexivity; lra.
  - pose proof (bearing_dominant_west x1 y1 x2 y2 Hdom).
    repeat case_bool_decide; simpl; try reflexivity; lra.
Qed.

End Bearings.

Section Angles.

Context {Mv Vcg : Type}.
Implicit Types (l self other : RoadLink Mv Vcg).
Local Open Scope R_scope.

Lemma half_turns_in_degrees (q : R) : 0 <= q <= PI → 0 <= q / PI * 180 <= 180.
Proof.
  intros [Hlo Hhi]. pose proof PI_RGT_0 as Hpi.
  assert (Hinv : 0 < / PI) by (apply Rinv_0_lt_compat; lra).
  assert (Hq : 0 <= q * / PI) by (apply Rmult_le_pos; lra).
  assert (Hq1 : q * / PI <= PI * / PI)
    by (apply Rmult_le_compat_r; lra).
  rewrite Rinv_r in Hq1 by lra. unfold Rdiv. lra.
Qed.

(** X16: whenever [getAcuteAngle] returns, what it returns is an angle
    between 0 and 180 degrees. *)
Theorem getAcuteAngle_between_0_and_180 self other (a : R) :
  getAcuteAngle self other = Ok a → 0 <= a <= 180.
Proof.
  unfold getAcuteAngle. intros Hret.
  repeat case_match; simplify_eq; try lra.
  apply half_turns_in_degrees.
  match goal with
  | |- context [acos ?r] =>
      pose proof (acos_bound r); rewrite Rabs_pos_eq by lra; lra
  end.
Qed.

(** The general path of [getAcuteAngle]: neither shortcut applies and both
    links have a length. *)
Lemma getAcuteAngle_measured self other :
  link_ident self ≠ link_ident other →
  ¬ coordinateShortcut self other → ¬ reverseShortcut self other →
  euclideanLength self ≠ 0 → euclideanLength other ≠ 0 →
  Rabs (dot (vsub (endPoint self) (startPoint self))
            (vsub (endPoint other) (startPoint other))
        / (euclideanLength self * euclideanLength other)) <= 1 →
  getAcuteAngle self other
  = Ok (Rabs (acos (dot (vsub (endPoint self) (startPoint self))
                        (vsub (endPoint other) (startPoint other))
                    / (euclideanLength self * euclideanLength other)))
        / PI * 180).
Proof.
  intros Hne Hc Hr Hl1 Hl2 Hle. unfold getAcuteAngle.
  rewrite (Link_eq_distinct _ _ Hne), (coordinateShortcut_false _ _ Hc),
    (reverseShortcut_false _ _ Hr).
  cbv zeta. unfold dot, vsub, startPoint, endPoint, euclideanLength,
    getStartNode, getEndNode in *. cbn [fst snd] in *.
  rewrite (bool_decide_eq_false_2 _ Hl1), (bool_decide_eq_false_2 _ Hl2).
  rewrite bool_decide_eq_false_2 by lra. reflexivity.
Qed.

Lemma euclideanLength_scaled self other (t : R) :
  vsub (endPoint other) (startPoint other)
  = (t * (vsub (endPoint self) (startPoint self)).1,
     t * (vsub (endPoint self) (startPoint self)).2) →
  euclideanLength other = Rabs t * euclideanLength self.
Proof.
  unfold vsub, startPoint, endPoint, getStartNode, getEndNode. cbn [fst snd].
  intros [= Hx Hy]. pose proof (euclideanLength_square self) as Hsq.
  unfold euclideanLength at 1. rewrite Hx, Hy.
  apply sqrt_lem_1.
  - set (dx := getX (_endNode self) - getX (_startNode self)).
    set (dy := getY (_endNode self) - getY (_startNode self)).
    pose proof (pow2_ge_0 (t * dx)). pose proof (pow2_ge_0 (t * dy)). lra.
  - apply Rmult_le_pos; [apply Rabs_pos | apply euclideanLength_nonneg].
  - replace (Rabs t * euclideanLength self * (Rabs t * euclideanLength self))
      with (Rabs t * Rabs t * (euclideanLength self * euclideanLength self))
      by ring.
    rewrite Hsq. replace (Rabs t * Rabs t) with (t * t); [ring|].
    destruct (Rabs_cases t) as [[_ ->]|[_ ->]]; ring.
Qed.

Lemma cosine_of_scaled self other (t : R) :
  t ≠ 0 → euclideanLength self ≠ 0 →
  vsub (endPoint other) (startPoint other)
  = (t * (vsub (endPoint self) (startPoint self)).1,
     t * (vsub (endPoint self) (startPoint self)).2) →
  dot (vsub (endPoint self) (startPoint self))
      (vsub (endPoint other) (startPoint other))
  / (euclideanLength self * euclideanLength other)
  = t / Rabs t.
Proof.
  intros Ht Hl Hv. rewrite (euclideanLength_scaled self other t Hv), Hv.
  pose proof (euclideanLength_square self) as Hsq.
  unfold dot, vsub, startPoint, endPoint, getStartNode, getEndNode in *.
  cbn [fst snd] in *.
  set (dx := getX (_endNode self) - getX (_startNode self)) in *.
  set (dy := getY (_endNode self) - getY (_startNode self)) in *.
  replace (dx * (t * dx) + dy * (t * dy)) with (t * (dx ^ 2 + dy ^ 2)) by ring.
  rewrite <- Hsq. field. split; [apply Rabs_no_R0, Ht | exact Hl].
Qed.

Lemma getAcuteAngle_perpendicular self other :
  link_ident self ≠ link_ident other →
  ¬ coordinateShortcut self other → ¬ reverseShortcut self other →
  euclideanLength self ≠ 0 → euclideanLength other ≠ 0 →
  dot (vsub (endPoint self) (startPoint self))
      (vsub (endPoint other) (startPoint other)) = 0 →
  getAcuteAngle self other = Ok 90.
Proof.
  intros Hne Hc Hr Hl1 Hl2 Hdot. pose proof PI_RGT_0 as Hpi.
  rewrite getAcuteAngle_measured; try assumption.
  - rewrite Hdot. unfold Rdiv at 2. rewrite Rmult_0_l, acos_0.
    rewrite Rabs_pos_eq by lra. f_equal. field. lra.
  - rewrite Hdot. unfold Rdiv. rewrite Rmult_0_l, Rabs_R0. lra.
Qed.

Lemma getAcuteAngle_same_direction self other (t : R) :
  link_ident self ≠ link_ident other →
  ¬ coordinateShortcut self other → ¬ reverseShortcut self other →
  euclideanLength self ≠ 0 → 0 < t →
  vsub (endPoint other) (startPoint other)
  = (t * (vsub (endPoint self) (startPoint self)).1,
     t * (vsub (endPoint self) (startPoint self)).2) →
  getAcuteAngle self other = Ok 0.
Proof.
  intros Hne Hc Hr Hl Ht Hv. pose proof PI_RGT_0 as Hpi.
  assert (Hcos : dot (vsub (endPoint self) (startPoint self))
                     (vsub (endPoint other) (startPoint other))
                 / (euclideanLength self * euclideanLength other) = 1).
  { rewrite (cosine_of_scaled self other t) by (lra || assumption).
    rewrite Rabs_pos_eq by lra. field. lra. }
  assert (Hl2 : euclideanLength other ≠ 0).
  { rewrite (euclideanLength_scaled self other t Hv), Rabs_pos_eq by lra.
    pose proof (euclideanLength_nonneg self). nra. }
  rewrite getAcuteAngle_measured; try assumption.
  - rewrite Hcos, acos_1, Rabs_R0. f_equal. field. lra.
  - rewrite Hcos, Rabs_pos_eq; lra.
Qed.

Lemma dot_comm (u v : Point) : dot u v = dot v u.
Proof. unfold dot. ring. Qed.

Lemma reverseShortcut_sym self other :
  reverseShortcut other self → reverseShortcut self other.
Proof. intros [Ha Hb]. split; symmetry; assumption. Qed.

(** The coordinate shortcut makes the vector of [self] horizontal and gives
    [other] the same run: at a right angle, [self] has no length. *)
Lemma coordinateShortcut_not_at_right_angle self other :
  coordinateShortcut self other →
  dot (vsub (endPoint self) (startPoint self))
      (vsub (endPoint other) (startPoint other)) = 0 →
  euclideanLength self = 0.
Proof.
  intros (Hx & Hy & Hx' & Hy') Hdot.
  pose proof (euclideanLength_square self) as Hsq.
  pose proof (euclideanLength_nonneg self) as Hpos.
  unfold dot, vsub, startPoint, endPoint, getStartNode, getEndNode in *.
  cbn [fst snd] in *.
  assert (Hdy : getY (_endNode self) - getY (_startNode self) = 0) by lra.
  assert (Hrun : getX (_endNode other) - getX (_startNode other)
                 = getX (_endNode self) - getX (_startNode self)) by lra.
  rewrite Hdy, Hrun, Rmult_0_l, Rplus_0_r in Hdot.
  assert (Hzero : euclideanLength self * euclideanLength self = 0)
    by (rewrite Hsq, Hdy; simpl; lra).
  apply Rmult_integral in Hzero. destruct Hzero; assumption.
Qed.

(** X17: two distinct links at a right angle, both with a length and not
    each other's reverse by their node objects, are measured 90 degrees
    apart, in both orders and wherever the links lie.  The coordinate
    shortcut cannot apply to them: its tests make the vector of the first
    link horizontal and give the second link the same run. *)
Theorem getAcuteAngle_right_angle self other :
  link_ident self ≠ link_ident other →
  ¬ reverseShortcut self other →
  euclideanLength self ≠ 0 → euclideanLength other ≠ 0 →
  dot (vsub (endPoint self) (startPoint self))
      (vsub (endPoint other) (startPoint other)) = 0 →
  getAcuteAngle self other = Ok 90 ∧ getAcuteAngle other self = Ok 90.
Proof.
  intros Hne Hr Hl1 Hl2 Hdot.
  assert (Hdot' : dot (vsub (endPoint other) (startPoint other))
                      (vsub (endPoint self) (startPoint self)) = 0)
    by (rewrite dot_comm; exact Hdot).
  split; apply getAcuteAngle_perpendicular; try assumption.
  - intros Hc. apply Hl1.
    exact (coordinateShortcut_not_at_right_angle self other Hc Hdot).
  - intros Hbad. apply Hne. symmetry. exact Hbad.
  - intros Hc. apply Hl2.
    exact (coordinateShortcut_not_at_right_angle other self Hc Hdot').
  - intros Hr'. apply Hr, reverseShortcut_sym, Hr'.
Qed.

(** X18: [isOverlapping] raises what [getAcuteAngle] raises and is [True]
    exactly for an angle of at most one degree.  A link overlaps itself;
    two distinct links that are each other's reverse, between nodes that
    have different coordinates, do not overlap; and two links that point
    the same way overlap however far apart they lie. *)
Theorem isOverlapping_cases self other (t : R) :
  isOverlapping self self = Ok true
  ∧ (∀ a, getAcuteAngle self other = Ok a →
          isOverlapping self other = Ok (bool_decide (a <= 1)))
  ∧ (∀ err, getAcuteAngle self other = Raise err →
            isOverlapping self other = Raise err)
  ∧ (link_ident self ≠ link_ident other →
     reversed self other → startPoint self ≠ endPoint self →
     isOverlapping self other = Ok false)
  ∧ (link_ident self ≠ link_ident other →
     ¬ coordinateShortcut self other → ¬ reverseShortcut self other →
     euclideanLength self ≠ 0 → 0 < t →
     vsub (endPoint other) (startPoint other)
     = (t * (vsub (endPoint self) (startPoint self)).1,
        t * (vsub (endPoint self) (startPoint self)).2) →
     isOverlapping self other = Ok true).
Proof.
  unfold isOverlapping. split; [|split; [|split; [|split]]].
  - rewrite getAcuteAngle_self. f_equal. apply bool_decide_eq_true_2. lra.
  - intros a ->. reflexivity.
  - intros err ->. reflexivity.
  - intros Hne Hrev Hnz. rewrite (getAcuteAngle_reversed _ _ Hne Hrev Hnz).
    f_equal. apply bool_decide_eq_false_2. lra.
  - intros Hne Hc Hr Hl Ht Hv.
    rewrite (getAcuteAngle_same_direction self other t); try assumption.
    f_equal. apply bool_decide_eq_true_2. lra.
Qed.

End Angles.

(** ** Properties of the travel-time series *)

Section TravelTimes.

Context {Mv Vcg : Type} `{Movement Mv} `{MovementTT Mv}.
Variable clock : SimClock.
Implicit Types (l : RoadLink Mv Vcg) (s e : Z).

(** Past its four checks [setSimTTInMin] looks at the number of outgoing
    movements. *)
Lemma setSimTTInMin_checked l s e (averageTT : R) :
  inHorizon clock s e → e - s = simTimeStepInMin clock →
  setSimTTInMin clock s e averageTT l
  = andThen (call getNumOutgoingMovements)
      (λ n, if n >? 1 then fail (DtaErrorSaying TravelTimeWithSeveralMovements)
            else if n =? 1 then
              if bool_decide (averageTT = 0%R) then finish tt
              else call (λ l, let '(movs, r) :=
                                writeMovementTimes (_outgoingMovements l) s e averageTT in
                              (set_outgoingMovements movs l, r))
            else
              if bool_decide (averageTT = 0%R) then finish tt
              else andThen (call (getSimVolume clock s e))
                     (λ volume, if volume =? 0
                                then fail (DtaErrorSaying TravelTimeWithZeroFlow)
                                else λ l, (set_simMeanTT
                                             (<[(s, e) := averageTT]> (_simMeanTT l)) l,
                                           Done tt))) l.
Proof.
  intros Hwin Hstep. unfold setSimTTInMin.
  unfold andThen at 1, call at 1. rewrite validateInputTimes_ok by exact Hwin.
  unfold andThen at 1, call at 1. rewrite checkInputTimeStep_ok by exact Hstep.
  destruct Hwin as (Hs & Hlt & He).
  unfold andThen at 1. rewrite Z.gtb_ltb.
  destruct (Z.ltb_spec s (simStartTimeInMin clock)); [lia|].
  destruct (Z.ltb_spec (simEndTimeInMin clock) e); [lia|]. simpl.
  unfold andThen at 1.
  destruct (Z.eqb_spec (e - s) (simTimeStepInMin clock)); [|lia]. reflexivity.
Qed.

(** X21: on a link with two or more outgoing movements [setSimTTInMin]
    raises a [DtaError] for every travel time, zero included, without
    asking or changing any movement: the link is left as it was. *)
Theorem setSimTTInMin_refused_with_several_movements l s e (averageTT : R) :
  (2 ≤ length (_outgoingMovements l))%nat →
  inHorizon clock s e → e - s = simTimeStepInMin clock →
  setSimTTInMin clock s e averageTT l
  = (l, Failed (DtaErrorSaying TravelTimeWithSeveralMovements)).
Proof.
  intros Hlen Hwin Hstep. rewrite setSimTTInMin_checked by assumption.
  unfold andThen, call, getNumOutgoingMovements, attr.
  replace (Z.of_nat (length (_outgoingMovements l)) >? 1) with true
    by (symmetry; apply Z.gtb_lt; lia).
  reflexivity.
Qed.

(** X22: a travel time of exactly 0 is dropped without a word: on a link
    with at most one outgoing movement [setSimTTInMin(s, e, 0)] returns
    normally and changes neither the link nor its movement. *)
Theorem setSimTTInMin_zero_is_dropped l s e :
  (length (_outgoingMovements l) ≤ 1)%nat →
  inHorizon clock s e → e - s = simTimeStepInMin clock →
  setSimTTInMin clock s e 0%R l = (l, Done tt).
Proof.
  intros Hlen Hwin Hstep. rewrite setSimTTInMin_checked by assumption.
  unfold andThen, call, getNumOutgoingMovements, attr.
  rewrite bool_decide_eq_true_2 by reflexivity.
  destruct (_outgoingMovements l) as [|m [|m' ms]]; simpl in Hlen; try lia;
    reflexivity.
Qed.

(** X23: on a link with no outgoing movement, a non-zero travel time for a
    native bin of the horizon is never accepted: [setSimTTInMin] asks
    [getSimVolume] for the volume of the bin, which raises [NameError] at
    its call of [pairwise], whatever the series holds.  The zero-flow check
    is not reached and the link is left as it was. *)
Theorem setSimTTInMin_without_movements_raises l s e (averageTT : R) :
  _outgoingMovements l = [] →
  inHorizon clock s e → e - s = simTimeStepInMin clock →
  averageTT ≠ 0%R →
  setSimTTInMin clock s e averageTT l = (l, Failed (Raised NameError)).
Proof.
  intros Hout Hwin Hstep Hnz. rewrite setSimTTInMin_checked by assumption.
  unfold andThen at 1, call at 1, getNumOutgoingMovements, attr.
  rewrite Hout. simpl. rewrite bool_decide_eq_false_2 by exact Hnz.
  assert (Hlt : s < e) by (destruct Hwin as (_ & ? & _); assumption).
  unfold andThen, call. rewrite getSimVolume_own; [reflexivity | | | |].
  - exact Hout.
  - lia.
  - exact Hwin.
  - rewrite <- Hstep. apply Z_mod_same_full.
Qed.

(** X24: [setSimTTInMin] never writes the link's own series.  Whatever the
    link, the window and the travel time, the travel-time map and the
    volume map after the call are the ones before it: a bad window is
    refused by the checks, several movements are refused, a single movement
    is handed the travel time, a zero travel time is dropped, and on a link
    with no movement the call of [getSimVolume] raises before the
    assignment to [_simMeanTT] is reached. *)
Theorem setSimTTInMin_never_stores l s e (averageTT : R) :
  _simMeanTT (setSimTTInMin clock s e averageTT l).1 = _simMeanTT l
  ∧ _simVolume (setSimTTInMin clock s e averageTT l).1 = _simVolume l.
Proof.
  enough (∃ l' o, setSimTTInMin clock s e averageTT l = (l', o)
                  ∧ _simMeanTT l' = _simMeanTT l
                  ∧ _simVolume l' = _simVolume l)
    as (l' & o & -> & Htt & Hvol) by (split; assumption).
  destruct (decide (inHorizon clock s e)) as [Hwin|Hwin].
  2: { unfold setSimTTInMin, andThen at 1, call at 1.
       destruct (validateInputTimes_rejects clock l s e Hwin) as (why & ->).
       eexists _, _. repeat split. }
  destruct (decide (e - s = simTimeStepInMin clock)) as [Hstep|Hstep].
  2: { unfold setSimTTInMin. unfold andThen at 1, call at 1.
       rewrite validateInputTimes_ok by exact Hwin.
       unfold andThen at 1, call at 1, _checkInputTimeStep.
       destruct (Z.eqb_spec (e - s) (simTimeStepInMin clock)); [contradiction|].
       eexists _, _. repeat split. }
  rewrite setSimTTInMin_checked by assumption.
  unfold andThen at 1, call at 1, getNumOutgoingMovements, attr.
  destruct (_outgoingMovements l) as [|m [|m' ms]] eqn:Hout.
  - simpl. case_bool_decide; [eexists _, _; repeat split|].
    destruct (getSimVolume_own_raises clock l s e Hout) as (err & Herr).
    unfold andThen, call. rewrite Herr. eexists _, _. repeat split.
  - simpl. case_bool_decide; [eexists _, _; repeat split|].
    unfold call. rewrite Hout.
    destruct (writeMovementTimes [m] s e averageTT) as [movs [[]|err]];
      eexists _, _; repeat split.
  - replace (Z.of_nat (length (m :: m' :: ms)) >? 1) with true
      by (symmetry; apply Z.gtb_lt; simpl length; lia).
    eexists _, _. repeat split.
Qed.

End TravelTimes.

(** ** Properties of the topology methods *)

Section TopologyProperties.

Context {Vcg : Type}.
Implicit Types (l target : RoadLink MovementObj Vcg)
  (net : Network (Vcg := Vcg)) (mov : MovementObj).

Lemma Movement_eq_refl mov : Movement_eq mov mov = true.
Proof. unfold Movement_eq. apply bool_decide_eq_true_2. reflexivity. Qed.

Lemma py_in_app_self mov (movs : list MovementObj) :
  py_in mov (movs ++ [mov]) = true.
Proof.
  induction movs as [|m movs IH]; simpl.
  - rewrite Movement_eq_refl. reflexivity.
  - destruct (Movement_eq m mov); [reflexivity | exact IH].
Qed.

Lemma py_remove_app_fresh mov (movs : list MovementObj) :
  freshIn mov movs → py_remove mov (movs ++ [mov]) = Some movs.
Proof.
  induction 1 as [|m movs Hm _ IH]; simpl.
  - rewrite Movement_eq_refl. reflexivity.
  - unfold Movement_eq at 1. rewrite bool_decide_eq_false_2 by exact Hm.
    rewrite IH. reflexivity.
Qed.

Lemma py_in_false mov (movs : list MovementObj) :
  py_in mov movs = false ↔ freshIn mov movs.
Proof.
  unfold freshIn. induction movs as [|m movs IH]; simpl.
  - split; [constructor | reflexivity].
  - unfold Movement_eq. case_bool_decide as Hm.
    + split; [discriminate|]. intros Hall. inversion Hall; subst. contradiction.
    + rewrite IH. split.
      * intros Hall. constructor; assumption.
      * intros Hall. inversion Hall; assumption.
Qed.

Lemma py_remove_None mov (movs : list MovementObj) :
  py_remove mov movs = None ↔ py_in mov movs = false.
Proof.
  induction movs as [|m movs IH]; simpl; [tauto|].
  destruct (Movement_eq m mov); [split; discriminate|].
  destruct (py_remove mov movs); [|tauto].
  split; [discriminate|]. intros Hin. apply IH in Hin. discriminate.
Qed.

Lemma py_remove_sublist mov (movs rest : list MovementObj) :
  py_remove mov movs = Some rest → sublist rest movs.
Proof.
  revert rest. induction movs as [|m movs IH]; intros rest; simpl;
    [discriminate|].
  destruct (Movement_eq m mov).
  - intros [= <-]. apply sublist_cons. reflexivity.
  - destruct (py_remove mov movs) as [r|]; [|discriminate].
    intros [= <-]. apply sublist_skip, IH. reflexivity.
Qed.

Lemma firstMovementTo_None (movs : list MovementObj) (nodeId : Z) :
  firstMovementTo movs nodeId = None
  ↔ nodeId ∉ (λ mov, getId (getDestinationNode mov)) <$> movs.
Proof.
  induction movs as [|m movs IH]; simpl.
  - split; [intros _; apply not_elem_of_nil | reflexivity].
  - rewrite not_elem_of_cons.
    destruct (Z.eqb_spec (getId (getDestinationNode m)) nodeId) as [Heq|Hne].
    + split; [discriminate|]. intros [Hbad _]. congruence.
    + rewrite IH. split; [intros Hn; split; [congruence | exact Hn] | tauto].
Qed.

Lemma firstMovementTo_Some (movs : list MovementObj) (nodeId : Z) mov :
  firstMovementTo movs nodeId = Some mov →
  getId (getDestinationNode mov) = nodeId
  ∧ ∃ before after,
      movs = before ++ mov :: after
      ∧ nodeId ∉ (λ m, getId (getDestinationNode m)) <$> before.
Proof.
  induction movs as [|m movs IH]; simpl; [discriminate|].
  destruct (Z.eqb_spec (getId (getDestinationNode m)) nodeId) as [Heq|Hne].
  - intros [= <-]. split; [exact Heq|].
    exists [], movs. split; [reflexivity | apply not_elem_of_nil].
  - intros Hfirst. destruct (IH Hfirst) as (Hid & before & after & -> & Hnot).
    split; [exact Hid|]. exists (m :: before), after.
    split; [reflexivity|]. rewrite fmap_cons, not_elem_of_cons.
    split; [congruence | exact Hnot].
Qed.

(** X25: [hasOutgoingMovement] and [getOutgoingMovement] agree: the first
    is [True] exactly when the second returns a movement; the movement
    returned is the first outgoing movement, in the order they were added,
    that leads to the node id asked for; when there is none the second
    raises a [DtaError]. *)
Theorem getOutgoingMovement_finds_first l (nodeId : Z) :
  (hasOutgoingMovement l nodeId = true
   ↔ ∃ mov, getOutgoingMovement l nodeId = Done mov)
  ∧ (∀ mov, getOutgoingMovement l nodeId = Done mov →
       getId (getDestinationNode mov) = nodeId
       ∧ ∃ before after,
           _outgoingMovements l = before ++ mov :: after
           ∧ nodeId ∉ (λ m, getId (getDestinationNode m)) <$> before)
  ∧ (hasOutgoingMovement l nodeId = false
     ↔ nodeId ∉ destinationIds l)
  ∧ (hasOutgoingMovement l nodeId = false →
     ∃ f, getOutgoingMovement l nodeId = Failed f ∧ isDomainFailure f = true).
Proof.
  unfold hasOutgoingMovement, getOutgoingMovement, destinationIds.
  pose proof (firstMovementTo_None (_outgoingMovements l) nodeId) as HNone.
  pose proof (firstMovementTo_Some (_outgoingMovements l) nodeId) as HSome.
  destruct (firstMovementTo (_outgoingMovements l) nodeId) as [found|].
  - split; [split; eauto|]. split; [intros mov [= <-]; apply HSome; reflexivity|].
    split; [|discriminate].
    split; [discriminate|]. intros Hno. apply HNone in Hno. discriminate.
  - split; [split; [discriminate | intros [mov Hmov]; discriminate]|].
    split; [intros mov Hmov; discriminate|].
    split; [split; [intros _; apply HNone; reflexivity | reflexivity]|].
    intros _. eexists. split; reflexivity.
Qed.

Lemma addOutgoingMovement_accepted (self : positive) mov net l target :
  net !! self = Some l →
  net !! getOutgoingLink mov = Some target →
  getIncomingLink mov = self →
  hasOutgoingMovement l (getId (getDestinationNode mov)) = false →
  let l1 := set_outgoingMovements (_outgoingMovements l ++ [mov]) l in
  let target1 := if decide (getOutgoingLink mov = self) then l1 else target in
  addOutgoingMovement self mov net
  = Some (<[getOutgoingLink mov :=
              set_incomingMovements (_incomingMovements target1 ++ [mov]) target1]>
            (<[self := l1]> net),
          Done tt).
Proof.
  intros Hself Htarget Hinc Hnew l1 target1. unfold addOutgoingMovement.
  unfold Network in *.
  rewrite Hself. rewrite bool_decide_eq_true_2 by exact Hinc. cbn [negb].
  rewrite Hnew. fold l1. unfold target1.
  destruct (decide (getOutgoingLink mov = self)) as [Heq|Hne].
  - rewrite Heq, lookup_insert_eq. reflexivity.
  - rewrite lookup_insert_ne by congruence. rewrite Htarget. reflexivity.
Qed.

(** X26: [addOutgoingMovement] accepts a movement that leaves this link
    towards a node id none of the link's outgoing movements leads to: the
    movement is appended to the outgoing movements of this link and to the
    incoming movements of the link it enters, and no other link of the
    network changes. *)
Theorem addOutgoingMovement_appends (self : positive) mov net l target :
  net !! self = Some l →
  net !! getOutgoingLink mov = Some target →
  getIncomingLink mov = self →
  hasOutgoingMovement l (getId (getDestinationNode mov)) = false →
  ∃ net' l' target',
    addOutgoingMovement self mov net = Some (net', Done tt)
    ∧ net' !! self = Some l'
    ∧ _outgoingMovements l' = _outgoingMovements l ++ [mov]
    ∧ net' !! getOutgoingLink mov = Some target'
    ∧ _incomingMovements target' = _incomingMovements target ++ [mov]
    ∧ (∀ k, k ≠ self → k ≠ getOutgoingLink mov → net' !! k = net !! k).
Proof.
  intros Hself Htarget Hinc Hnew.
  rewrite (addOutgoingMovement_accepted self mov net l target) by assumption.
  cbv zeta. unfold Network in *.
  destruct (decide (getOutgoingLink mov = self)) as [Heq|Hne].
  - assert (target = l) by congruence. subst target.
    eexists _, _, _. split; [reflexivity|].
    rewrite Heq, !lookup_insert_eq.
    split; [reflexivity|]. split; [reflexivity|].
    split; [reflexivity|]. split; [reflexivity|].
    intros k Hk _. rewrite !lookup_insert_ne by congruence. reflexivity.
  - eexists _, _, _. split; [reflexivity|].
    rewrite lookup_insert_ne by congruence. rewrite !lookup_insert_eq.
    split; [reflexivity|]. split; [reflexivity|].
    split; [reflexivity|]. split; [reflexivity|].
    intros k Hk1 Hk2. rewrite !lookup_insert_ne by congruence. reflexivity.
Qed.

(** X27: a movement whose incoming link is not this link is refused by
    both methods, the network left as it was, but not in the same way:
    [removeOutgoingMovement] raises the [DtaError] it means to raise, while
    [addOutgoingMovement] raises [TypeError], because its message has no
    place for the argument it is formatted with. *)
Theorem inconsistent_movement_refused (self : positive) mov net l :
  net !! self = Some l →
  getIncomingLink mov ≠ self →
  addOutgoingMovement self mov net = Some (net, Failed TypeError)
  ∧ removeOutgoingMovement self mov net
    = Some (net, Failed (DtaErrorSaying InconsistentMovement)).
Proof.
  intros Hself Hinc. unfold addOutgoingMovement, removeOutgoingMovement.
  rewrite Hself. rewrite bool_decide_eq_false_2 by exact Hinc. split; reflexivity.
Qed.

Lemma destinationIds_set_incomingMovements (inc : list MovementObj) l :
  destinationIds (set_incomingMovements inc l) = destinationIds l.
Proof. reflexivity. Qed.

(** X28: no link ever gets two outgoing movements towards the same node
    id.  [addOutgoingMovement] refuses, with a [DtaError] and no change, a
    movement towards a node id that an outgoing movement of the link
    already leads to; and a network in which the outgoing movements of
    every link lead to distinct node ids is still one after
    [addOutgoingMovement] and after [removeOutgoingMovement], whatever
    they return. *)
Theorem outgoing_destinations_stay_distinct (self : positive) mov net :
  distinctDestinations net →
  (∀ l, net !! self = Some l → getIncomingLink mov = self →
        hasOutgoingMovement l (getId (getDestinationNode mov)) = true →
        addOutgoingMovement self mov net
        = Some (net, Failed (DtaErrorSaying ExistingMovement)))
  ∧ (∀ net' r, addOutgoingMovement self mov net = Some (net', r) →
               distinctDestinations net')
  ∧ (∀ net' r, removeOutgoingMovement self mov net = Some (net', r) →
               distinctDestinations net').
Proof.
  intros Hinv. unfold distinctDestinations, Network in *. split; [|split].
  - intros l Hself Hinc Hhas. unfold addOutgoingMovement. unfold Network in *.
    rewrite Hself, Hhas. rewrite bool_decide_eq_true_2 by exact Hinc.
    reflexivity.
  - intros net' r. unfold addOutgoingMovement. unfold Network in *.
    destruct (net !! self) as [l|] eqn:Hself; [|discriminate].
    destruct (negb _); [intros [= <- _]; exact Hinv|].
    destruct (hasOutgoingMovement l _) eqn:Hhas; [intros [= <- _]; exact Hinv|].
    set (l1 := set_outgoingMovements (_outgoingMovements l ++ [mov]) l).
    assert (Hl1 : NoDup (destinationIds l1)).
    { unfold destinationIds, l1.
      cbn [_outgoingMovements set_outgoingMovements assign].
      rewrite fmap_app. apply NoDup_app. split; [exact (Hinv self l Hself)|].
      split; [|apply NoDup_singleton].
      intros x Hx Hx'. apply list_elem_of_singleton in Hx'. subst x.
      unfold hasOutgoingMovement in Hhas.
      destruct (firstMovementTo (_outgoingMovements l) _) eqn:Hfirst;
        [discriminate|].
      apply firstMovementTo_None in Hfirst. contradiction. }
    assert (Hinv1 : ∀ k lk, <[self := l1]> net !! k = Some lk →
                            NoDup (destinationIds lk)).
    { intros k lk. destruct (decide (k = self)) as [->|Hk].
      - rewrite lookup_insert_eq. intros [= <-]. exact Hl1.
      - rewrite lookup_insert_ne by congruence. apply Hinv. }
    destruct (<[self := l1]> net !! getOutgoingLink mov) as [target|] eqn:Ht;
      [|discriminate].
    intros [= <- _]. intros k lk.
    destruct (decide (k = getOutgoingLink mov)) as [->|Hk].
    + rewrite lookup_insert_eq. intros [= <-].
      rewrite destinationIds_set_incomingMovements. exact (Hinv1 _ _ Ht).
    + rewrite lookup_insert_ne by congruence. apply Hinv1.
  - intros net' r. unfold removeOutgoingMovement. unfold Network in *.
    destruct (net !! self) as [l|] eqn:Hself; [|discriminate].
    destruct (negb (bool_decide _)); [intros [= <- _]; exact Hinv|].
    destruct (negb (py_in _ _)); [intros [= <- _]; exact Hinv|].
    destruct (py_remove mov (_outgoingMovements l)) as [out|] eqn:Hout;
      [|intros [= <- _]; exact Hinv].
    set (l1 := set_outgoingMovements out l).
    assert (Hl1 : NoDup (destinationIds l1)).
    { unfold destinationIds, l1.
      cbn [_outgoingMovements set_outgoingMovements assign].
      eapply sublist_NoDup; [exact (Hinv self l Hself)|].
      apply fmap_sublist. exact (py_remove_sublist mov _ _ Hout). }
    assert (Hinv1 : ∀ k lk, <[self := l1]> net !! k = Some lk →
                            NoDup (destinationIds lk)).
    { intros k lk. destruct (decide (k = self)) as [->|Hk].
      - rewrite lookup_insert_eq. intros [= <-]. exact Hl1.
      - rewrite lookup_insert_ne by congruence. apply Hinv. }
    destruct (<[self := l1]> net !! getOutgoingLink mov) as [target|] eqn:Ht;
      [|discriminate].
    destruct (py_remove mov (_incomingMovements target)) as [inc|];
      [|intros [= <- _]; exact Hinv1].
    intros [= <- _]. intros k lk.
    destruct (decide (k = getOutgoingLink mov)) as [->|Hk].
    + rewrite lookup_insert_eq. intros [= <-].
      rewrite destinationIds_set_incomingMovements. exact (Hinv1 _ _ Ht).
    + rewrite lookup_insert_ne by congruence. apply Hinv1.
Qed.

Lemma py_in_true_of_remove mov (movs : list MovementObj) :
  py_in mov movs = true ↔ ∃ rest, py_remove mov movs = Some rest.
Proof.
  pose proof (py_remove_None mov movs) as HNone.
  destruct (py_remove mov movs) as [rest|].
  - split; [eauto|]. intros _.
    destruct (py_in mov movs); [reflexivity|].
    assert (Some rest = None) by (apply HNone; reflexivity). discriminate.
  - split; [|intros [rest Hr]; discriminate].
    intros Hin. rewrite (proj1 HNone eq_refl) in Hin. discriminate.
Qed.

(** X29: [removeOutgoingMovement] undoes [addOutgoingMovement].  When a
    movement that is not yet among the outgoing movements of this link nor
    among the incoming movements of the link it enters is added and then
    removed, both calls return normally and the network is again what it
    was before. *)
Theorem add_then_remove_restores_network (self : positive) mov net l target :
  net !! self = Some l →
  net !! getOutgoingLink mov = Some target →
  getIncomingLink mov = self →
  hasOutgoingMovement l (getId (getDestinationNode mov)) = false →
  freshIn mov (_outgoingMovements l) →
  freshIn mov (_incomingMovements target) →
  ∃ net', addOutgoingMovement self mov net = Some (net', Done tt)
          ∧ removeOutgoingMovement self mov net' = Some (net, Done tt).
Proof.
  intros Hself Htarget Hinc Hnew Hout Hin.
  rewrite (addOutgoingMovement_accepted self mov net l target) by assumption.
  cbv zeta. eexists. split; [reflexivity|].
  unfold removeOutgoingMovement. unfold Network in *.
  destruct (decide (getOutgoingLink mov = self)) as [Heq|Hne].
  - assert (target = l) by congruence. subst target.
    rewrite Heq. rewrite lookup_insert_eq.
    rewrite bool_decide_eq_true_2 by exact Hinc. cbn [negb].
    cbn [_outgoingMovements _incomingMovements set_incomingMovements
         set_outgoingMovements assign].
    rewrite py_in_app_self. cbn [negb].
    rewrite (py_remove_app_fresh mov _ Hout).
    rewrite lookup_insert_eq.
    cbn [_outgoingMovements _incomingMovements set_incomingMovements
         set_outgoingMovements assign].
    rewrite (py_remove_app_fresh mov _ Hin).
    do 2 f_equal. rewrite !insert_insert_eq.
    replace (set_incomingMovements _ _) with l; [apply insert_id, Hself|].
    destruct l; reflexivity.
  - rewrite lookup_insert_ne by congruence. rewrite lookup_insert_eq.
    rewrite bool_decide_eq_true_2 by exact Hinc. cbn [negb].
    cbn [_outgoingMovements set_outgoingMovements assign].
    rewrite py_in_app_self. cbn [negb].
    rewrite (py_remove_app_fresh mov _ Hout).
    rewrite lookup_insert_ne by congruence. rewrite lookup_insert_eq.
    cbn [_incomingMovements set_incomingMovements].
    rewrite (py_remove_app_fresh mov _ Hin).
    do 2 f_equal.
    replace (set_incomingMovements (_incomingMovements target) _) with target
      by (destruct target; reflexivity).
    replace (set_outgoingMovements (_outgoingMovements l) _) with l
      by (destruct l; reflexivity).
    apply map_eq. intros k.
    destruct (decide (k = getOutgoingLink mov)) as [->|Hk1].
    + rewrite lookup_insert_eq. congruence.
    + rewrite lookup_insert_ne by congruence.
      destruct (decide (k = self)) as [->|Hk2].
      * rewrite lookup_insert_eq. congruence.
      * rewrite !lookup_insert_ne by congruence. reflexivity.
Qed.

(** X30: [removeOutgoingMovement] refuses, with a [DtaError] and no
    change, a movement that is not among the outgoing movements of this
    link.  But when the movement is among them and not among the incoming
    movements of the link it enters, the call raises [ValueError] after it
    has already taken the movement out of the outgoing movements: the
    network it leaves is not the one it found. *)
Theorem removeOutgoingMovement_failures (self : positive) mov net l target :
  net !! self = Some l →
  net !! getOutgoingLink mov = Some target →
  getIncomingLink mov = self →
  (freshIn mov (_outgoingMovements l) →
   removeOutgoingMovement self mov net
   = Some (net, Failed (DtaErrorSaying InexistingMovement)))
  ∧ (∀ rest, py_remove mov (_outgoingMovements l) = Some rest →
       freshIn mov (_incomingMovements target) →
       removeOutgoingMovement self mov net
       = Some (<[self := set_outgoingMovements rest l]> net,
               Failed (Raised ValueError))).
Proof.
  intros Hself Htarget Hinc. unfold removeOutgoingMovement.
  unfold Network in *. rewrite Hself.
  rewrite bool_decide_eq_true_2 by exact Hinc. cbn [negb].
  split.
  - intros Hfresh. apply py_in_false in Hfresh. rewrite Hfresh. reflexivity.
  - intros rest Hrest Hfresh.
    assert (Hin : py_in mov (_outgoingMovements l) = true)
      by (apply py_in_true_of_remove; eauto).
    rewrite Hin, Hrest. cbn [negb].
    apply py_in_false, py_remove_None in Hfresh.
    destruct (decide (getOutgoingLink mov = self)) as [Heq|Hne].
    + assert (target = l) by congruence. subst target.
      rewrite Heq, lookup_insert_eq.
      cbn [_incomingMovements set_outgoingMovements assign].
      rewrite Hfresh. reflexivity.
    + rewrite lookup_insert_ne by congruence. rewrite Htarget, Hfresh.
      reflexivity.
Qed.

End TopologyProperties.

(** ** The further properties on the sample network *)

Section MoreSamples.

Local Open Scope R_scope.

Ltac on_samples :=
  cbn [getStartNode getEndNode _startNode _endNode _id _shapePoints
       linkEast linkWest linkNorth linkFlat linkSlant linkThere linkBack
       sampleLink set_centerline assign getX getY
       nodeO nodeE nodeN nodeU nodeF nodeO'].

Lemma window_0_30 : inHorizon clock15 0 30.
Proof. unfold inHorizon; simpl; lia. Qed.

Lemma window_0_15 : inHorizon clock15 0 15.
Proof. unfold inHorizon; simpl; lia. Qed.

Lemma window_15_30 : inHorizon clock15 15 30.
Proof. unfold inHorizon; simpl; lia. Qed.

Lemma window_30_45 : inHorizon clock15 30 45.
Proof. unfold inHorizon; simpl; lia. Qed.

Lemma getSimVolume_refuses_bad_window_witness :
  ∃ err, getSimVolume clock15 0 20 linkEast = (linkEast, Raise err)
         ∧ (isDtaError err = true
            ∨ (err = ZeroDivisionError ∧ inHorizon clock15 0 20
               ∧ simTimeStepInMin clock15 = 0%Z)).
Proof.
  apply (getSimVolume_refuses_bad_window clock15 linkEast 0 20).
  intros (_ & _ & Hmod). vm_compute in Hmod. discriminate.
Defined.

Lemma setSimVolume_refuses_bad_window_witness :
  ∃ why, setSimVolume clock15 0 30 5 linkEast = (linkEast, Raise (DtaError why)).
Proof.
  apply (setSimVolume_refuses_bad_window clock15 linkEast 0 30 5).
  intros (_ & Hstep). vm_compute in Hstep. discriminate.
Defined.

Lemma setSimVolume_stores_bin_witness :
  ∃ l', setSimVolume clock15 15 30 7 linkLoaded = (l', Ok tt)
        ∧ _simVolume l' !! (15, 30)%Z = Some 7%Z
        ∧ (∀ k, k ≠ (15, 30)%Z → _simVolume l' !! k = _simVolume linkLoaded !! k)
        ∧ _simMeanTT l' = _simMeanTT linkLoaded
        ∧ _outgoingMovements l' = [].
Proof.
  apply (setSimVolume_stores_bin clock15 linkLoaded 15 30 7).
  - reflexivity.
  - exact window_15_30.
  - reflexivity.
Defined.

Lemma getSimVolume_without_movements_raises_witness :
  ∃ err, getSimVolume clock15 0 30 linkLoaded = (linkLoaded, Raise err)
         ∧ (inHorizon clock15 0 30 → simTimeStepInMin clock15 ≠ 0%Z →
            ((30 - 0) mod simTimeStepInMin clock15 = 0)%Z → err = NameError).
Proof.
  apply (getSimVolume_without_movements_raises clock15 linkLoaded 0 30).
  reflexivity.
Defined.

Lemma getSimVolume_additive_with_movements_witness :
  ∃ V, getSimVolume clock15 0 30 linkFan = (linkFan, Ok V)
       ∧ sumSimVolumeOverBins clock15 (subBins clock15 0 30) linkFan
         = (linkFan, Ok V)
       ∧ V = Zsum ((λ mov, Zsum (movementVolume mov <$> subBins clock15 0 30))
                     <$> _outgoingMovements linkFan).
Proof.
  apply (getSimVolume_additive_with_movements clock15 linkFan 0 30).
  - discriminate.
  - simpl; lia.
  - exact window_0_30.
  - reflexivity.
  - repeat constructor; eexists; split; vm_compute; reflexivity.
Defined.

Lemma setSimVolume_single_movement_witness :
  ((0 ≤ 0)%Z →
   setSimVolume clock15 30 45 9 linkSingle
   = (set_outgoingMovements [(mov_setSimVolume movA 30 45 9).1] linkSingle,
      (mov_setSimVolume movA 30 45 9).2))
  ∧ ((0 < 0)%Z →
     setSimVolume clock15 30 45 9 linkSingle
     = (linkSingle, Raise (DtaError MovementWithVolume))).
Proof.
  apply (setSimVolume_single_movement clock15 linkSingle movA 30 45 9 0).
  - reflexivity.
  - exact window_30_45.
  - reflexivity.
  - reflexivity.
Defined.

Lemma addLanePermission_keeps_lanes_within_bounds_witness :
  lanesWithinBounds (addLanePermission 1 tt linkEast).1.
Proof.
  apply (addLanePermission_keeps_lanes_within_bounds linkEast 1 tt).
  intros laneId [g Hg]. exfalso. revert Hg. apply lookup_empty_Some.
Defined.

Lemma linkEast_length : euclideanLength linkEast = 10.
Proof.
  unfold euclideanLength. on_samples. apply sqrt_of_squares; lra.
Qed.

Lemma linkNorth_length : euclideanLength linkNorth = 10.
Proof.
  unfold euclideanLength. on_samples. apply sqrt_of_squares; lra.
Qed.

Lemma linkThere_length : euclideanLength linkThere = 0.
Proof.
  unfold euclideanLength. on_samples. apply sqrt_of_squares; lra.
Qed.

Lemma linkEast_linkNorth_no_shortcut :
  link_ident linkEast ≠ link_ident linkNorth
  ∧ ¬ coordinateShortcut linkEast linkNorth
  ∧ ¬ coordinateShortcut linkNorth linkEast
  ∧ ¬ reverseShortcut linkEast linkNorth
  ∧ ¬ reverseShortcut linkNorth linkEast.
Proof.
  split; [discriminate|].
  unfold coordinateShortcut, reverseShortcut. on_samples.
  split; [intros (_ & Hbad & _); lra|].
  split; [intros (_ & _ & Hbad & _); lra|].
  split; intros [Hbad _]; discriminate.
Qed.

Lemma linkEast_linkNorth_right_angle :
  dot (vsub (endPoint linkEast) (startPoint linkEast))
      (vsub (endPoint linkNorth) (startPoint linkNorth)) = 0
  ∧ dot (vsub (endPoint linkNorth) (startPoint linkNorth))
        (vsub (endPoint linkEast) (startPoint linkEast)) = 0.
Proof.
  unfold dot, vsub, startPoint, endPoint. on_samples. cbn [fst snd].
  split; lra.
Qed.

Lemma getCenterLine_right_offset_witness :
  ∃ off,
    getCenterLine linkEast
    = (set_centerline (vadd (startPoint linkEast) off,
                       vadd (endPoint linkEast) off) linkEast,
       Ok (vadd (startPoint linkEast) off, vadd (endPoint linkEast) off))
    ∧ dot off (vsub (endPoint linkEast) (startPoint linkEast)) = 0
    ∧ cross (vsub (endPoint linkEast) (startPoint linkEast)) off < 0
    ∧ norm off = IZR (getNumLanes linkEast) * 6
    ∧ getMidPoint (getCenterLine linkEast).1
      = vadd (((startPoint linkEast).1 + (endPoint linkEast).1) / 2,
              ((startPoint linkEast).2 + (endPoint linkEast).2) / 2) off.
Proof.
  apply (getCenterLine_right_offset linkEast).
  - rewrite linkEast_length. lra.
  - reflexivity.
Defined.

Lemma getOutline_ring_witness :
  ∃ off,
    getOutline 1 linkEast
    = (startPoint linkEast, endPoint linkEast,
       vadd (endPoint linkEast) off, vadd (startPoint linkEast) off)
    ∧ dot off (vsub (endPoint linkEast) (startPoint linkEast)) = 0
    ∧ norm off = IZR (getNumLanes linkEast) * 12 * 1
    ∧ clockwise (getOutline 1 linkEast).
Proof.
  apply (getOutline_ring linkEast 1).
  - rewrite linkEast_length. lra.
  - reflexivity.
  - lra.
Defined.

Lemma zero_length_footprint_witness :
  (getCenterLine linkThere).2 = Ok (startPoint linkThere, startPoint linkThere)
  ∧ getOutline 1 linkThere
    = (startPoint linkThere, startPoint linkThere,
       startPoint linkThere, startPoint linkThere)
  ∧ endPoint linkThere = startPoint linkThere.
Proof.
  apply (zero_length_footprint linkThere 1). exact linkThere_length.
Defined.

Lemma axis_aligned_orientation_witness :
  (getX (getEndNode linkEast) = getX (getStartNode linkEast) →
   getY (getEndNode linkEast) > getY (getStartNode linkEast) →
   getOrientation linkEast = Ok 0 ∧ getDirection linkEast = Ok DIR_NB)
  ∧ (getX (getEndNode linkEast) > getX (getStartNode linkEast) →
     getY (getEndNode linkEast) = getY (getStartNode linkEast) →
     getOrientation linkEast = Ok 90 ∧ getDirection linkEast = Ok DIR_EB)
  ∧ (getX (getEndNode linkEast) = getX (getStartNode linkEast) →
     getY (getEndNode linkEast) < getY (getStartNode linkEast) →
     getOrientation linkEast = Ok 180 ∧ getDirection linkEast = Ok DIR_SB)
  ∧ (getX (getEndNode linkEast) < getX (getStartNode linkEast) →
     getY (getEndNode linkEast) = getY (getStartNode linkEast) →
     getOrientation linkEast = Ok 270 ∧ getDirection linkEast = Ok DIR_WB).
Proof.
  apply (axis_aligned_orientation linkEast). reflexivity.
Defined.

Lemma getDirection_dominant_axis_witness :
  (Rabs (10 - 0) < 0 - 0 → getDirection linkEast = Ok DIR_NB)
  ∧ (Rabs (0 - 0) < 10 - 0 → getDirection linkEast = Ok DIR_EB)
  ∧ (Rabs (10 - 0) < - (0 - 0) → getDirection linkEast = Ok DIR_SB)
  ∧ (Rabs (0 - 0) < - (10 - 0) → getDirection linkEast = Ok DIR_WB).
Proof.
  apply (getDirection_dominant_axis linkEast 0 0 10 0). reflexivity.
Defined.

Lemma getAcuteAngle_between_0_and_180_witness : 0 <= 180 <= 180.
Proof.
  apply (getAcuteAngle_between_0_and_180 linkEast linkWest 180).
  exact linkEast_linkWest_angle.
Defined.

Lemma getAcuteAngle_right_angle_witness :
  getAcuteAngle linkEast linkNorth = Ok 90
  ∧ getAcuteAngle linkNorth linkEast = Ok 90.
Proof.
  destruct linkEast_linkNorth_no_shortcut as (Hne & _ & _ & Hr & _).
  destruct linkEast_linkNorth_right_angle as [Hd _].
  apply (getAcuteAngle_right_angle linkEast linkNorth Hne Hr).
  - rewrite linkEast_length. lra.
  - rewrite linkNorth_length. lra.
  - exact Hd.
Defined.

Lemma linkEast_linkNorth_angle :
  getAcuteAngle linkEast linkNorth = Ok 90
  ∧ getAcuteAngle linkNorth linkEast = Ok 90.
Proof.
  destruct linkEast_linkNorth_no_shortcut as (Hne & Hc & Hc' & Hr & Hr').
  destruct linkEast_linkNorth_right_angle as [Hd Hd'].
  split; apply getAcuteAngle_perpendicular; try assumption;
    rewrite ?linkEast_length, ?linkNorth_length; try lra.
  intros Hbad. apply Hne. symmetry. exact Hbad.
Qed.

Lemma getAcuteAngle_symmetric_off_shortcut_witness : 90 = 90.
Proof.
  destruct linkEast_linkNorth_no_shortcut as (_ & Hc & Hc' & _).
  apply (getAcuteAngle_symmetric_off_shortcut linkEast linkNorth 90 90 Hc Hc');
    apply linkEast_linkNorth_angle.
Defined.

Lemma getOrientation_range_witness :
  ∃ o, getOrientation linkEast = Ok o ∧ 0 <= o < 360.
Proof.
  apply (getOrientation_range linkEast). discriminate.
Defined.

Lemma setSimTTInMin_refused_with_several_movements_witness :
  setSimTTInMin clock15 0 15 3 linkFan
  = (linkFan, Failed (DtaErrorSaying TravelTimeWithSeveralMovements)).
Proof.
  apply (setSimTTInMin_refused_with_several_movements clock15 linkFan 0 15 3).
  - simpl; lia.
  - exact window_0_15.
  - reflexivity.
Defined.

Lemma setSimTTInMin_zero_is_dropped_witness :
  setSimTTInMin clock15 0 15 0 linkSingle = (linkSingle, Done tt).
Proof.
  apply (setSimTTInMin_zero_is_dropped clock15 linkSingle 0 15).
  - simpl; lia.
  - exact window_0_15.
  - reflexivity.
Defined.

Lemma setSimTTInMin_without_movements_raises_witness :
  setSimTTInMin clock15 0 15 3 linkLoaded
  = (linkLoaded, Failed (Raised NameError)).
Proof.
  apply (setSimTTInMin_without_movements_raises clock15 linkLoaded 0 15 3).
  - reflexivity.
  - exact window_0_15.
  - reflexivity.
  - lra.
Defined.

Lemma junction_linkIn : junction !! 21%positive = Some linkIn.
Proof. reflexivity. Qed.

Lemma junction_linkOut : junction !! 22%positive = Some linkOut.
Proof. reflexivity. Qed.

Lemma junction_distinct : distinctDestinations junction.
Proof.
  unfold distinctDestinations, Network. intros k l Hk. unfold junction in Hk.
  apply lookup_insert_Some in Hk as [[_ <-]|[_ Hk]]; [constructor|].
  apply lookup_insert_Some in Hk as [[_ <-]|[_ Hk]]; [constructor|].
  rewrite lookup_empty in Hk. discriminate.
Qed.

Lemma addOutgoingMovement_appends_witness :
  ∃ net' l' target',
    addOutgoingMovement 21 turn junction = Some (net', Done tt)
    ∧ net' !! 21%positive = Some l'
    ∧ _outgoingMovements l' = _outgoingMovements linkIn ++ [turn]
    ∧ net' !! getOutgoingLink turn = Some target'
    ∧ _incomingMovements target' = _incomingMovements linkOut ++ [turn]
    ∧ (∀ k, k ≠ 21%positive → k ≠ getOutgoingLink turn →
            net' !! k = junction !! k).
Proof.
  apply (addOutgoingMovement_appends 21 turn junction linkIn linkOut).
  - exact junction_linkIn.
  - exact junction_linkOut.
  - reflexivity.
  - reflexivity.
Defined.

Lemma inconsistent_movement_refused_witness :
  addOutgoingMovement 21 strayTurn junction = Some (junction, Failed TypeError)
  ∧ removeOutgoingMovement 21 strayTurn junction
    = Some (junction, Failed (DtaErrorSaying InconsistentMovement)).
Proof.
  apply (inconsistent_movement_refused 21 strayTurn junction linkIn).
  - exact junction_linkIn.
  - discriminate.
Defined.

Lemma outgoing_destinations_stay_distinct_witness :
  (∀ l, junction !! 21%positive = Some l → getIncomingLink turn = 21%positive →
        hasOutgoingMovement l (getId (getDestinationNode turn)) = true →
        addOutgoingMovement 21 turn junction
        = Some (junction, Failed (DtaErrorSaying ExistingMovement)))
  ∧ (∀ net' r, addOutgoingMovement 21 turn junction = Some (net', r) →
               distinctDestinations net')
  ∧ (∀ net' r, removeOutgoingMovement 21 turn junction = Some (net', r) →
               distinctDestinations net').
Proof.
  apply (outgoing_destinations_stay_distinct 21 turn junction).
  exact junction_distinct.
Defined.

Lemma add_then_remove_restores_network_witness :
  ∃ net', addOutgoingMovement 21 turn junction = Some (net', Done tt)
          ∧ removeOutgoingMovement 21 turn net' = Some (junction, Done tt).
Proof.
  apply (add_then_remove_restores_network 21 turn junction linkIn linkOut).
  - exact junction_linkIn.
  - exact junction_linkOut.
  - reflexivity.
  - reflexivity.
  - constructor.
  - constructor.
Defined.

Lemma removeOutgoingMovement_failures_witness :
  (freshIn turn (_outgoingMovements linkIn) →
   removeOutgoingMovement 21 turn junction
   = Some (junction, Failed (DtaErrorSaying InexistingMovement)))
  ∧ (∀ rest, py_remove turn (_outgoingMovements linkIn) = Some rest →
       freshIn turn (_incomingMovements linkOut) →
       removeOutgoingMovement 21 turn junction
       = Some (<[21%positive := set_outgoingMovements rest linkIn]> junction,
               Failed (Raised ValueError))).
Proof.
  apply (removeOutgoingMovement_failures 21 turn junction linkIn linkOut).
  - exact junction_linkIn.
  - exact junction_linkOut.
  - reflexivity.
Defined.

(** A stale back-reference: the movement is among the outgoing movements
    of the link 21, but the link 22 does not list it as incoming. *)
Example removeOutgoingMovement_half_done :
  removeOutgoingMovement 21 turn
    (<[21%positive := set_outgoingMovements [turn] linkIn]> junction)
  = Some (<[21%positive := set_outgoingMovements [] (set_outgoingMovements [turn] linkIn)]>
            (<[21%positive := set_outgoingMovements [turn] linkIn]> junction),
          Failed (Raised ValueError)).
Proof. reflexivity. Qed.

End MoreSamples.
